(** * The IoT device manager of the smart-home platform

    A shallow embedding of [src/iot-service/device_manager.py]
    (class [IoTDeviceManager]) and the properties of its message routing,
    registry updates and command issuance.

    Conventions of the embedding.
    - A Python value that reaches the manager is a [json]: what
      [json.loads] can return, and what a caller passes as a command or
      as parameters.  Python [int] is [Z].  Python [float] is not
      represented.  A Python [str] is a Rocq [string], one [ascii] per
      character, so strings are restricted to code points below 256.
    - A Python [dict] produced by [json.loads] is the list of its items in
      insertion order ([JDict]); its keys are strings.
    - The manager, the requests handed to the MQTT client, the callback
      invocations and the log records are one [world]; every method is a
      computation in the monad [py], which threads the world and may raise
      a Python exception.  An exception does not roll the world back.
    - [datetime.now().isoformat()] is an input: every method that reads the
      clock takes the string [now].  No method reads it twice.
    - The MQTT client and [json.dumps] are libraries: the world holds, for
      each, on which arguments it raises, and every statement is for
      every such client and every such [json.dumps]. *)

From Stdlib Require Import Ascii.
From stdpp Require Import base option list strings gmap pretty.

Local Open Scope Z_scope.
Local Open Scope string_scope.
Local Open Scope list_scope.

(** ** Python values *)

#[warnings="-register-all"]
Inductive json : Type :=
  | JNull
  | JBool (b : bool)
  | JInt (z : Z)
  | JStr (s : string)
  | JList (items : list json)
  | JDict (kvs : list (string * json)).

(** [bool(v)]: the truth value Python gives to [v] in [if v] and [v or d]. *)
Definition truthy (v : json) : bool :=
  match v with
  | JNull => false
  | JBool b => b
  | JInt z => negb (Z.eqb z 0)
  | JStr s => negb (String.eqb s "")
  | JList items => match items with [] => false | _ => true end
  | JDict kvs => match kvs with [] => false | _ => true end
  end.

(** The hashable values: [None], [bool], [int] and [str].  Lists and
    dicts raise [TypeError: unhashable type] when used as a dict key. *)
Inductive atom : Type :=
  | ANone
  | ABool (b : bool)
  | AInt (z : Z)
  | AStr (s : string).

Definition hashable (v : json) : option atom :=
  match v with
  | JNull => Some ANone
  | JBool b => Some (ABool b)
  | JInt z => Some (AInt z)
  | JStr s => Some (AStr s)
  | JList _ | JDict _ => None
  end.

(** Keys of a Python dict, up to Python's [==]: [True == 1] and
    [False == 0] with equal hashes, so a [bool] and the [int] it equals
    name the same slot. *)
Inductive pykey : Type :=
  | KNone
  | KInt (z : Z)
  | KStr (s : string).

Definition key_of (a : atom) : pykey :=
  match a with
  | ANone => KNone
  | ABool b => KInt (if b then 1 else 0)
  | AInt z => KInt z
  | AStr s => KStr s
  end.

#[global] Instance pykey_eq_dec : EqDecision pykey.
Proof. solve_decision. Defined.

Definition pykey_enc (k : pykey) : unit + Z + string :=
  match k with
  | KNone => inl (inl tt)
  | KInt z => inl (inr z)
  | KStr s => inr s
  end.

Definition pykey_dec (x : unit + Z + string) : pykey :=
  match x with
  | inl (inl _) => KNone
  | inl (inr z) => KInt z
  | inr s => KStr s
  end.

#[global] Instance pykey_countable : Countable pykey.
Proof.
  apply (inj_countable' pykey_enc pykey_dec).
  intros []; reflexivity.
Defined.

(** [str(a)], as an f-string formats a hashable value. *)
Definition py_str (a : atom) : string :=
  match a with
  | ANone => "None"
  | ABool true => "True"
  | ABool false => "False"
  | AInt z => pretty z
  | AStr s => s
  end.

(** [d.get(key)] and [d.get(key, default)] on a dict from [json.loads]. *)
Fixpoint dict_get (key : string) (kvs : list (string * json)) : option json :=
  match kvs with
  | [] => None
  | (k, v) :: rest => if String.eqb k key then Some v else dict_get key rest
  end.

Definition get_or (default : json) (key : string) (kvs : list (string * json)) : json :=
  match dict_get key kvs with
  | Some v => v
  | None => default
  end.

(** ** Strings: [startswith], [endswith], [split] *)

Fixpoint startswith (s p : string) {struct p} : bool :=
  match p, s with
  | EmptyString, _ => true
  | String a p', String b s' => Ascii.eqb a b && startswith s' p'
  | String _ _, EmptyString => false
  end.

Definition endswith (s p : string) : bool :=
  startswith (String.rev s) (String.rev p).

(** [s.split(sep)] for a one-character separator: never empty. *)
Fixpoint split (sep : Ascii.ascii) (s : string) : list string :=
  match s with
  | EmptyString => [EmptyString]
  | String c rest =>
      if Ascii.eqb c sep then EmptyString :: split sep rest
      else match split sep rest with
           | seg :: segs => String c seg :: segs
           | [] => [String c EmptyString]
           end
  end.

(** ** Exceptions *)

(** The exception classes that occur.  [DecodeError] stands for the
    [UnicodeDecodeError] of [bytes.decode] and the [JSONDecodeError] of
    [json.loads] (both subclasses of [ValueError]); [UserError] is any
    [Exception] subclass a callback raises. *)
Inductive exn : Type :=
  | ValueError
  | DecodeError
  | TypeError
  | AttributeError
  | IndexError
  | KeyError
  | UserError (tag : nat)
  | KeyboardInterrupt
  | SystemExit.

(** [isinstance(e, Exception)]: what [except Exception] catches. *)
Definition is_Exception (e : exn) : bool :=
  match e with
  | KeyboardInterrupt | SystemExit => false
  | _ => true
  end.

(** ** The world *)

(** One entry of [self.devices].  A field of type [option] is a key the
    discovery handler does not create. *)
Record device : Type := Device {
  d_id : json;
  d_type : json;
  d_name : json;
  d_capabilities : json;
  d_manufacturer : json;
  d_model : json;
  d_firmware_version : json;
  d_discovered_at : string;
  d_online : json;
  d_state : gmap pykey json;
  d_last_update : option string;
  d_battery : option json;
  d_signal_strength : option json
}.

(** A callable registered by [subscribe_to_topic].  [cb_name] identifies
    the Python object; [cb_body topic payload] is [None] when the call
    returns and [Some e] when it raises [e].  A callback that calls back
    into the manager, or that mutates the payload it is given, is not
    represented. *)
Record callback : Type := Callback {
  cb_name : nat;
  cb_body : string → json → option exn
}.

(** What [self.client] is asked to do.  [Publish] carries the value given
    to [json.dumps]. *)
Inductive request : Type :=
  | Subscribe (topic : string)
  | Publish (topic : string) (body : json).

(** One call [callback(topic, payload)]. *)
Record invocation : Type := Invocation {
  inv_callback : nat;
  inv_topic : string;
  inv_payload : json
}.

(** The calls to [logger], one constructor per call site. *)
Inductive log_record : Type :=
  | LogConnected
  | LogConnectFailed (rc : Z)
  | LogUnexpectedDisconnect (rc : Z)
  | LogReceived (topic : string) (payload : json)
  | LogError (e : exn)
  | LogDiscovered (name device_id : json)
  | LogStateUpdated (device_id : string) (payload : json)
  | LogStatusUpdated (device_id : string) (payload : json)
  | LogSent (command device_id : json)
  | LogSceneCreated (name : json)
  | LogSceneActivated (name : json)
  | LogAutomationCreated (name : json)
  | LogSubscribed (topic : string).

(** The world holds the two libraries as far as the manager can observe
    them: [client_raises r] tells whether [self.client] raises on the
    request [r], as paho does with [ValueError] on a topic or a filter it
    does not accept; [dumps_raises v] tells whether [json.dumps(v)]
    raises, as CPython does with [ValueError] on an integer too long to
    convert.  No method changes either.  [ValueError] stands for what
    the library raises, which is an [Exception].  [sent] lists the
    requests handed to the client in order, those it raised on
    included. *)
Record world : Type := World {
  client_raises : request → bool;
  dumps_raises : json → bool;
  devices : gmap pykey device;
  callbacks : gmap string (list callback);
  sent : list request;
  calls : list invocation;
  logged : list log_record
}.

Definition set_devices (f : gmap pykey device → gmap pykey device) (w : world) : world :=
  World (client_raises w) (dumps_raises w) (f (devices w)) (callbacks w) (sent w) (calls w)
    (logged w).

Definition set_callbacks (f : gmap string (list callback) → gmap string (list callback))
    (w : world) : world :=
  World (client_raises w) (dumps_raises w) (devices w) (f (callbacks w)) (sent w) (calls w)
    (logged w).

(** ** The monad of methods *)

Inductive result (A : Type) : Type :=
  | Ok (a : A)
  | Raise (e : exn).
Arguments Ok {A} a.
Arguments Raise {A} e.

Definition py (A : Type) : Type := world → result A * world.

#[global] Instance py_ret : MRet py := λ A a w, (Ok a, w).

#[global] Instance py_bind : MBind py := λ A B f m w,
  match m w with
  | (Ok a, w') => f a w'
  | (Raise e, w') => (Raise e, w')
  end.

Definition raise {A : Type} (e : exn) : py A := λ w, (Raise e, w).

Definition gets {A : Type} (f : world → A) : py A := λ w, (Ok (f w), w).

Definition modify (f : world → world) : py unit := λ w, (Ok tt, f w).

(** [try: body except Exception as e: handler(e)] *)
Definition try_except {A : Type} (body : py A) (handler : exn → py A) : py A := λ w,
  match body w with
  | (Raise e, w') => if is_Exception e then handler e w' else (Raise e, w')
  | r => r
  end.

(** [for x in l: body(x)] *)
Fixpoint for_each {A : Type} (l : list A) (body : A → py unit) : py unit :=
  match l with
  | [] => mret tt
  | x :: rest => body x;; for_each rest body
  end.

(** A call of [self.client]: the request is handed to the client, which
    raises [ValueError] or returns. *)
Definition client_request (r : request) : py unit := λ w,
  let w' := World (client_raises w) (dumps_raises w) (devices w) (callbacks w)
              (sent w ++ [r]) (calls w) (logged w) in
  if client_raises w r then (Raise ValueError, w') else (Ok tt, w').

(** [self.client.subscribe(topic)] *)
Definition client_subscribe (topic : string) : py unit := client_request (Subscribe topic).

(** [self.client.publish(topic, body)] *)
Definition client_publish (topic : string) (body : json) : py unit :=
  client_request (Publish topic body).

(** [json.dumps(v)]: raises [ValueError] or returns; the value stands
    for the string it is serialised to. *)
Definition json_dumps (v : json) : py json := λ w,
  if dumps_raises w v then (Raise ValueError, w) else (Ok v, w).

(** [logger.debug], [logger.info], [logger.warning], [logger.error] *)
Definition logger (r : log_record) : py unit :=
  modify (λ w, World (client_raises w) (dumps_raises w) (devices w) (callbacks w) (sent w)
                 (calls w) (logged w ++ [r])).

(** [callback(topic, payload)] *)
Definition call (cb : callback) (topic : string) (payload : json) : py unit := λ w,
  let w' := World (client_raises w) (dumps_raises w) (devices w) (callbacks w) (sent w)
              (calls w ++ [Invocation (cb_name cb) topic payload]) (logged w) in
  match cb_body cb topic payload with
  | None => (Ok tt, w')
  | Some e => (Raise e, w')
  end.

(** ** Messages *)

(** The body of an MQTT message, up to what
    [json.loads(msg.payload.decode())] makes of it: either one of the two
    calls raises, or the body encodes a value. *)
Inductive bytes : Type :=
  | Undecodable
  | Encodes (v : json).

Record message : Type := Message {
  msg_topic : string;
  msg_payload : bytes
}.

Definition loads (b : bytes) : py json :=
  match b with
  | Undecodable => raise DecodeError
  | Encodes v => mret v
  end.

(** [payload.get(key, default)]: only a dict has the method. *)
Definition payload_get (payload : json) (key : string) (default : json) : py json :=
  match payload with
  | JDict kvs => mret (get_or default key kvs)
  | _ => raise AttributeError
  end.

(** [hash(v)], as [in], [[]] and [.get] of a dict evaluate it. *)
Definition hash (v : json) : py atom :=
  match hashable v with
  | Some a => mret a
  | None => raise TypeError
  end.

(** [l[i]] *)
Definition index {A : Type} (l : list A) (i : nat) : py A :=
  match l !! i with
  | Some x => mret x
  | None => raise IndexError
  end.

(** ** [dict.update] *)

(** One element of a non-dict argument of [dict.update], read as a
    sequence of length two: a list gives its two elements, a string its
    two characters, a dict its two keys. *)
Definition as_pair (item : json) : result (json * json) :=
  match item with
  | JList [k; v] => Ok (k, v)
  | JList _ => Raise ValueError
  | JStr (String a (String b EmptyString)) =>
      Ok (JStr (String a EmptyString), JStr (String b EmptyString))
  | JStr _ => Raise ValueError
  | JDict [(k1, _); (k2, _)] => Ok (JStr k1, JStr k2)
  | JDict _ => Raise ValueError
  | JNull | JBool _ | JInt _ => Raise TypeError
  end.

(** [d.update(items)] for a list: the elements are stored one by one, and
    what was stored before a bad element stays. *)
Fixpoint merge_from_seq2 (items : list json) (d : gmap pykey json)
    : result unit * gmap pykey json :=
  match items with
  | [] => (Ok tt, d)
  | item :: rest =>
      match as_pair item with
      | Raise e => (Raise e, d)
      | Ok (k, v) =>
          match hashable k with
          | None => (Raise TypeError, d)
          | Some a => merge_from_seq2 rest (<[key_of a := v]> d)
          end
      end
  end.

(** [d.update(kvs)] for a dict. *)
Definition merge (kvs : list (string * json)) (d : gmap pykey json) : gmap pykey json :=
  foldl (λ acc kv, <[KStr kv.1 := kv.2]> acc) d kvs.

(** [d.update(payload)] for any payload.  A non-empty string fails on its
    first character, a sequence of length one. *)
Definition dict_update (payload : json) (d : gmap pykey json)
    : result unit * gmap pykey json :=
  match payload with
  | JDict kvs => (Ok tt, merge kvs d)
  | JList items => merge_from_seq2 items d
  | JStr EmptyString => (Ok tt, d)
  | JStr (String _ _) => (Raise ValueError, d)
  | JNull | JBool _ | JInt _ => (Raise TypeError, d)
  end.

(** ** Assignments to the keys of a record *)

Definition with_state (f : gmap pykey json → gmap pykey json) (d : device) : device :=
  Device (d_id d) (d_type d) (d_name d) (d_capabilities d) (d_manufacturer d)
    (d_model d) (d_firmware_version d) (d_discovered_at d) (d_online d)
    (f (d_state d)) (d_last_update d) (d_battery d) (d_signal_strength d).

Definition with_last_update (t : string) (d : device) : device :=
  Device (d_id d) (d_type d) (d_name d) (d_capabilities d) (d_manufacturer d)
    (d_model d) (d_firmware_version d) (d_discovered_at d) (d_online d)
    (d_state d) (Some t) (d_battery d) (d_signal_strength d).

Definition with_online (v : json) (d : device) : device :=
  Device (d_id d) (d_type d) (d_name d) (d_capabilities d) (d_manufacturer d)
    (d_model d) (d_firmware_version d) (d_discovered_at d) v
    (d_state d) (d_last_update d) (d_battery d) (d_signal_strength d).

Definition with_battery (v : json) (d : device) : device :=
  Device (d_id d) (d_type d) (d_name d) (d_capabilities d) (d_manufacturer d)
    (d_model d) (d_firmware_version d) (d_discovered_at d) (d_online d)
    (d_state d) (d_last_update d) (Some v) (d_signal_strength d).

Definition with_signal_strength (v : json) (d : device) : device :=
  Device (d_id d) (d_type d) (d_name d) (d_capabilities d) (d_manufacturer d)
    (d_model d) (d_firmware_version d) (d_discovered_at d) (d_online d)
    (d_state d) (d_last_update d) (d_battery d) (Some v).

(** [self.devices[k]['state'].update(payload)] *)
Definition state_update (k : pykey) (payload : json) : py unit := λ w,
  match devices w !! k with
  | None => (Raise KeyError, w)
  | Some d =>
      let '(r, st) := dict_update payload (d_state d) in
      (r, set_devices <[k := with_state (λ _, st) d]> w)
  end.

(** [self.devices[k][field] = v], for a [k] that is present. *)
Definition assign (k : pykey) (f : device → device) : py unit :=
  modify (set_devices (alter f k)).

(** ** The handlers of [IoTDeviceManager] *)

Definition _handle_device_discovery (now : string) (topic : string) (payload : json)
    : py unit :=
  device_id ← payload_get payload "device_id" JNull;
  device_type ← payload_get payload "type" JNull;
  device_name ← payload_get payload "name" JNull;
  if truthy device_id then
    a ← hash device_id;
    known ← gets (λ w, devices w !! key_of a);
    match known with
    | Some _ => mret tt
    | None =>
        capabilities ← payload_get payload "capabilities" (JList []);
        manufacturer ← payload_get payload "manufacturer" JNull;
        model ← payload_get payload "model" JNull;
        firmware_version ← payload_get payload "firmware_version" JNull;
        modify (set_devices <[key_of a :=
          Device device_id device_type device_name capabilities manufacturer
            model firmware_version now (JBool true) ∅ None None None]>);;
        logger (LogDiscovered device_name device_id);;
        client_subscribe ("smarthome/devices/" +:+ py_str a +:+ "/#")
    end
  else mret tt.

Definition _handle_device_state_update (now : string) (device_id : string) (payload : json)
    : py unit :=
  known ← gets (λ w, devices w !! KStr device_id);
  match known with
  | Some _ =>
      state_update (KStr device_id) payload;;
      assign (KStr device_id) (with_last_update now);;
      logger (LogStateUpdated device_id payload)
  | None => mret tt
  end.

Definition _handle_device_status (device_id : string) (payload : json) : py unit :=
  known ← gets (λ w, devices w !! KStr device_id);
  match known with
  | Some _ =>
      online ← payload_get payload "online" (JBool false);
      assign (KStr device_id) (with_online online);;
      battery ← payload_get payload "battery" JNull;
      assign (KStr device_id) (with_battery battery);;
      signal_strength ← payload_get payload "signal_strength" JNull;
      assign (KStr device_id) (with_signal_strength signal_strength);;
      logger (LogStatusUpdated device_id payload)
  | None => mret tt
  end.

(** The [if]/[elif] chain of [_on_message]. *)
Definition route (now : string) (topic : string) (payload : json) : py unit :=
  if startswith topic "smarthome/discovery/" then
    _handle_device_discovery now topic payload
  else if endswith topic "/state" then
    device_id ← index (split "/"%char topic) 2;
    _handle_device_state_update now device_id payload
  else if endswith topic "/status" then
    device_id ← index (split "/"%char topic) 2;
    _handle_device_status device_id payload
  else mret tt.

(** The callback loop of [_on_message]. *)
Definition trigger_callbacks (topic : string) (payload : json) : py unit :=
  registered ← gets (λ w, callbacks w !! topic);
  match registered with
  | Some cbs => for_each cbs (λ cb, call cb topic payload)
  | None => mret tt
  end.

Definition _on_message (now : string) (msg : message) : py unit :=
  try_except
    (let topic := msg_topic msg in
     payload ← loads (msg_payload msg);
     logger (LogReceived topic payload);;
     route now topic payload;;
     trigger_callbacks topic payload)
    (λ e, logger (LogError e)).

Definition _on_connect (rc : Z) : py unit :=
  if Z.eqb rc 0 then
    logger LogConnected;;
    client_subscribe "smarthome/devices/+/status";;
    client_subscribe "smarthome/devices/+/state";;
    client_subscribe "smarthome/discovery/#"
  else logger (LogConnectFailed rc).

Definition _on_disconnect (rc : Z) : py unit :=
  if Z.eqb rc 0 then mret tt else logger (LogUnexpectedDisconnect rc).

(** ** Queries and commands of [IoTDeviceManager] *)

(** [v['type'] == device_type] for a string [device_type]. *)
Definition has_type (device_type : string) (d : device) : bool :=
  match d_type d with
  | JStr s => String.eqb s device_type
  | _ => false
  end.

(** [device_type] is [None] or a string; [None] and [''] are falsy. *)
Definition get_devices (device_type : option string) : py (gmap pykey device) :=
  match device_type with
  | Some t =>
      if truthy (JStr t) then
        gets (λ w, filter (λ kv, has_type t kv.2 = true) (devices w))
      else gets devices
  | None => gets devices
  end.

Definition get_device (device_id : json) : py (option device) :=
  a ← hash device_id;
  gets (λ w, devices w !! key_of a).

Definition control_device (now : string) (device_id command params : json) : py bool :=
  a ← hash device_id;
  known ← gets (λ w, devices w !! key_of a);
  match known with
  | None => raise ValueError
  | Some _ =>
      let topic := "smarthome/devices/" +:+ py_str a +:+ "/command" in
      let payload := JDict [("command", command);
                            ("params", if truthy params then params else JDict []);
                            ("timestamp", JStr now)] in
      body ← json_dumps payload;
      client_publish topic body;;
      logger (LogSent command device_id);;
      mret true
  end.

Definition turn_on (now : string) (device_id : json) : py bool :=
  control_device now device_id (JStr "turn_on") JNull.

Definition turn_off (now : string) (device_id : json) : py bool :=
  control_device now device_id (JStr "turn_off") JNull.

Definition set_brightness (now : string) (device_id brightness : json) : py bool :=
  control_device now device_id (JStr "set_brightness") (JDict [("brightness", brightness)]).

Definition set_color (now : string) (device_id color : json) : py bool :=
  control_device now device_id (JStr "set_color") (JDict [("color", color)]).

Definition set_temperature (now : string) (device_id temperature : json) : py bool :=
  control_device now device_id (JStr "set_temperature")
    (JDict [("temperature", temperature)]).

Definition lock (now : string) (device_id : json) : py bool :=
  control_device now device_id (JStr "lock") JNull.

Definition unlock (now : string) (device_id : json) : py bool :=
  control_device now device_id (JStr "unlock") JNull.

Definition create_scene (now : string) (scene_name device_states : json) : py bool :=
  let topic := "smarthome/scenes/create" in
  let payload := JDict [("name", scene_name);
                        ("devices", device_states);
                        ("created_at", JStr now)] in
  body ← json_dumps payload;
  client_publish topic body;;
  logger (LogSceneCreated scene_name);;
  mret true.

Definition activate_scene (now : string) (scene_name : json) : py bool :=
  let topic := "smarthome/scenes/activate" in
  let payload := JDict [("name", scene_name); ("timestamp", JStr now)] in
  body ← json_dumps payload;
  client_publish topic body;;
  logger (LogSceneActivated scene_name);;
  mret true.

Definition create_automation (now : string) (automation_name trigger conditions actions : json)
    : py bool :=
  let topic := "smarthome/automations/create" in
  let payload := JDict [("name", automation_name);
                        ("trigger", trigger);
                        ("conditions", conditions);
                        ("actions", actions);
                        ("created_at", JStr now)] in
  body ← json_dumps payload;
  client_publish topic body;;
  logger (LogAutomationCreated automation_name);;
  mret true.

Definition subscribe_to_topic (topic : string) (cb : callback) : py unit :=
  registered ← gets (λ w, callbacks w !! topic);
  match registered with
  | None =>
      modify (set_callbacks <[topic := []]>);;
      client_subscribe topic
  | Some _ => mret tt
  end;;
  modify (set_callbacks (alter (λ cbs : list callback, (cbs ++ [cb])%list) topic));;
  logger (LogSubscribed topic).

Definition get_energy_usage (now : string) (device_id : json) : py bool :=
  let topic := "smarthome/energy/query" in
  let payload := JDict [("device_id", device_id); ("timestamp", JStr now)] in
  body ← json_dumps payload;
  client_publish topic body;;
  mret true.

(** ** Sequences of operations *)

(** One use of the manager: a message delivered by the client, or a
    method called by the application. *)
Inductive op : Type :=
  | OnConnect (rc : Z)
  | OnDisconnect (rc : Z)
  | OnMessage (now : string) (msg : message)
  | GetDevices (device_type : option string)
  | GetDevice (device_id : json)
  | ControlDevice (now : string) (device_id command params : json)
  | TurnOn (now : string) (device_id : json)
  | TurnOff (now : string) (device_id : json)
  | SetBrightness (now : string) (device_id brightness : json)
  | SetColor (now : string) (device_id color : json)
  | SetTemperature (now : string) (device_id temperature : json)
  | Lock (now : string) (device_id : json)
  | Unlock (now : string) (device_id : json)
  | CreateScene (now : string) (scene_name device_states : json)
  | ActivateScene (now : string) (scene_name : json)
  | CreateAutomation (now : string) (automation_name trigger conditions actions : json)
  | SubscribeToTopic (topic : string) (cb : callback)
  | GetEnergyUsage (now : string) (device_id : json).

(** The world after a computation, whether it returned or raised. *)
Definition after {A : Type} (m : py A) (w : world) : world := (m w).2.

(** Whether a computation raised, and what. *)
Definition raised {A : Type} (m : py A) (w : world) : option exn :=
  match (m w).1 with
  | Ok _ => None
  | Raise e => Some e
  end.

Definition exec (o : op) (w : world) : world :=
  match o with
  | OnConnect rc => after (_on_connect rc) w
  | OnDisconnect rc => after (_on_disconnect rc) w
  | OnMessage now msg => after (_on_message now msg) w
  | GetDevices device_type => after (get_devices device_type) w
  | GetDevice device_id => after (get_device device_id) w
  | ControlDevice now device_id command params =>
      after (control_device now device_id command params) w
  | TurnOn now device_id => after (turn_on now device_id) w
  | TurnOff now device_id => after (turn_off now device_id) w
  | SetBrightness now device_id brightness => after (set_brightness now device_id brightness) w
  | SetColor now device_id color => after (set_color now device_id color) w
  | SetTemperature now device_id temperature =>
      after (set_temperature now device_id temperature) w
  | Lock now device_id => after (lock now device_id) w
  | Unlock now device_id => after (unlock now device_id) w
  | CreateScene now scene_name device_states =>
      after (create_scene now scene_name device_states) w
  | ActivateScene now scene_name => after (activate_scene now scene_name) w
  | CreateAutomation now automation_name trigger conditions actions =>
      after (create_automation now automation_name trigger conditions actions) w
  | SubscribeToTopic topic cb => after (subscribe_to_topic topic cb) w
  | GetEnergyUsage now device_id => after (get_energy_usage now device_id) w
  end.

(** The world after a sequence of operations, in order. *)
Definition exec_all (os : list op) (w : world) : world := foldl (λ w o, exec o w) w os.

(** ** A new manager *)

(** [IoTDeviceManager()] before any message, for a client and a
    [json.dumps] that raise where [client] and [dumps] say. *)
Definition new_manager (client : request → bool) (dumps : json → bool) : world :=
  World client dumps ∅ ∅ [] [] [].

(** [c in s] *)
Fixpoint has_char (c : Ascii.ascii) (s : string) : bool :=
  match s with
  | EmptyString => false
  | String b rest => Ascii.eqb b c || has_char c rest
  end.

(** [len(s.encode('utf-8'))] *)
Fixpoint utf8_length (s : string) : N :=
  match s with
  | EmptyString => 0%N
  | String b rest => ((if (Ascii.N_of_ascii b <? 128)%N then 1 else 2) + utf8_length rest)%N
  end.

(** ['#/' in s] *)
Fixpoint has_hash_slash (s : string) : bool :=
  match s with
  | EmptyString => false
  | String b rest =>
      match rest with
      | String c _ => Ascii.eqb b "#" && Ascii.eqb c "/" || has_hash_slash rest
      | EmptyString => false
      end
  end.

(** The topics paho does not publish to: the empty one, those with a
    wildcard, those longer than 65535 bytes. *)
Definition paho_bad_topic (topic : string) : bool :=
  String.eqb topic "" || has_char "+" topic || has_char "#" topic ||
  (65535 <? utf8_length topic)%N.

(** The filters paho does not subscribe to: the empty one, those longer
    than 65535 bytes, those with a wildcard that is not a whole level,
    those with [#] before the last level. *)
Definition paho_bad_filter (filter : string) : bool :=
  String.eqb filter "" || (65535 <? utf8_length filter)%N ||
  existsb (λ level, Nat.ltb 1 (String.length level) &&
                    (has_char "+" level || has_char "#" level))
    (split "/" filter) ||
  has_hash_slash filter.

(** The paho client, as to the topic of a request. *)
Definition paho_raises (r : request) : bool :=
  match r with
  | Subscribe topic => paho_bad_filter topic
  | Publish topic _ => paho_bad_topic topic
  end.

(** The integers CPython does not convert to a string have more than
    4300 digits. *)
Definition int_max_str : Z := Eval vm_compute in (10 ^ 4300)%Z.

(** [json.dumps] of CPython, as to the integers of a value. *)
Fixpoint cpython_dumps_raises (v : json) : bool :=
  match v with
  | JInt z => Z.leb int_max_str (Z.abs z)
  | JList items => existsb cpython_dumps_raises items
  | JDict kvs => existsb (λ kv, cpython_dumps_raises kv.2) kvs
  | JNull | JBool _ | JStr _ => false
  end.

(** A new manager with paho and CPython. *)
Definition initial : world := new_manager paho_raises cpython_dumps_raises.

(** ** Notions used in the statements *)

(** [sep.join(segs)] *)
Fixpoint join (sep : Ascii.ascii) (segs : list string) : string :=
  match segs with
  | [] => EmptyString
  | [s] => s
  | s :: rest => s +:+ String sep (join sep rest)
  end.

(** [sep not in s] *)
Fixpoint sep_free (sep : Ascii.ascii) (s : string) : bool :=
  match s with
  | EmptyString => true
  | String c rest => negb (Ascii.eqb c sep) && sep_free sep rest
  end.

(** The topic begins with the prefix [p]. *)
Definition begins_with (s p : string) : Prop := ∃ r, s = p +:+ r.

(** The topic ends with the suffix [p]. *)
Definition ends_with (s p : string) : Prop := ∃ r, s = r +:+ p.

(** [d] is the third slash-delimited segment of the topic. *)
Definition third_segment (topic d : string) : Prop :=
  ∃ segs, Forall (λ s, sep_free "/" s = true) segs ∧ topic = join "/" segs ∧
          segs !! 2%nat = Some d.

(** The call a callback receives for an event. *)
Definition invocation_of (topic : string) (payload : json) (cb : callback) : invocation :=
  Invocation (cb_name cb) topic payload.

(** The callbacks of a list that are reached: all up to and including the
    first one that raises. *)
Fixpoint until_raise (topic : string) (payload : json) (cbs : list callback)
    : list callback :=
  match cbs with
  | [] => []
  | cb :: rest =>
      match cb_body cb topic payload with
      | None => cb :: until_raise topic payload rest
      | Some _ => [cb]
      end
  end.

(** The first exception the callbacks of a list raise, if any. *)
Fixpoint first_raise (topic : string) (payload : json) (cbs : list callback)
    : option exn :=
  match cbs with
  | [] => None
  | cb :: rest =>
      match cb_body cb topic payload with
      | None => first_raise topic payload rest
      | Some e => Some e
      end
  end.

(** The same world with [l] logged before everything else. *)
Definition relog (l : list log_record) (w : world) : world :=
  World (client_raises w) (dumps_raises w) (devices w) (callbacks w) (sent w) (calls w)
    (l ++ logged w).

(** A computation that never reads the log and only appends to it. *)
Definition log_blind {A : Type} (m : py A) : Prop :=
  ∀ l w, m (relog l w) = ((m w).1, relog l (m w).2).

(** Two worlds that differ in the log only. *)
Definition same_but_log (w1 w2 : world) : Prop :=
  devices w1 = devices w2 ∧ callbacks w1 = callbacks w2 ∧
  sent w1 = sent w2 ∧ calls w1 = calls w2.

(** Every key of [w] is a key of [w'], with a record of the same id. *)
Definition extends (w w' : world) : Prop :=
  ∀ k d, devices w !! k = Some d → ∃ d', devices w' !! k = Some d' ∧ d_id d' = d_id d.

(** A computation whose final world is always related to its initial
    world by [R], whether it returns or raises. *)
Definition respects {A : Type} (R : relation world) (m : py A) : Prop :=
  ∀ w, R w (m w).2.

(** The worlds that agree on the observation [f]. *)
Definition same {X : Type} (f : world → X) : relation world := λ w w', f w' = f w.

(** The record the discovery handler creates at time [now] for
    [device_id] from the payload [kvs]. *)
Definition discovered (now : string) (device_id : json) (kvs : list (string * json))
    : device :=
  Device device_id (get_or JNull "type" kvs) (get_or JNull "name" kvs)
    (get_or (JList []) "capabilities" kvs) (get_or JNull "manufacturer" kvs)
    (get_or JNull "model" kvs) (get_or JNull "firmware_version" kvs)
    now (JBool true) ∅ None None None.

(** The world with one more record in the log. *)
Definition log_also (r : log_record) (w : world) : world :=
  World (client_raises w) (dumps_raises w) (devices w) (callbacks w) (sent w) (calls w)
    (logged w ++ [r]).

(** The world with one more request to the client. *)
Definition send_also (r : request) (w : world) : world :=
  World (client_raises w) (dumps_raises w) (devices w) (callbacks w) (sent w ++ [r]) (calls w)
    (logged w).

(** The world after the callbacks [cbs] were called, in order. *)
Definition call_also (topic : string) (payload : json) (cbs : list callback) (w : world)
    : world :=
  World (client_raises w) (dumps_raises w) (devices w) (callbacks w) (sent w)
    (calls w ++ map (invocation_of topic payload) cbs) (logged w).

(** ** Sample worlds *)

(** A discovery payload, and the record it makes. *)
Definition lamp_payload : list (string * json) :=
  [("device_id", JStr "d1"); ("type", JStr "light"); ("name", JStr "Lamp")].

Definition lamp : device := discovered "2024-05-01T08:00:00" (JStr "d1") lamp_payload.

(** A manager that knows the lamp and nothing else. *)
Definition home : world :=
  World paho_raises cpython_dumps_raises {[KStr "d1" := lamp]} ∅ [] [] [].

(** A callback that returns, and one that raises [ValueError]. *)
Definition quiet : callback := Callback 1 (λ _ _, None).
Definition faulty : callback := Callback 2 (λ _ _, Some ValueError).


(** Discovery messages: for the lamp, and one whose [device_id] is the
    empty string. *)
Definition lamp_discovery : message :=
  Message "smarthome/discovery/d1" (Encodes (JDict lamp_payload)).

Definition nameless_discovery : message :=
  Message "smarthome/discovery/new"
    (Encodes (JDict [("device_id", JStr ""); ("type", JStr "light")])).

(** A state update and a status report for the lamp. *)
Definition lamp_on : message :=
  Message "smarthome/devices/d1/state" (Encodes (JDict [("on", JBool true)])).

Definition lamp_status : message :=
  Message "smarthome/devices/d1/status"
    (Encodes (JDict [("online", JBool false); ("battery", JInt 42)])).


(** A manager with the devices [lab] and [state], as two discovery
    messages leave it. *)
Definition lab_home : world :=
  exec_all
    [OnMessage "2024-05-01T08:00:00"
       (Message "smarthome/discovery/lab" (Encodes (JDict [("device_id", JStr "lab")])));
     OnMessage "2024-05-01T08:00:01"
       (Message "smarthome/discovery/state" (Encodes (JDict [("device_id", JStr "state")])))]
    initial.

(** A state message on a topic of two segments. *)
Definition short_state : message :=
  Message "lab/state" (Encodes (JDict [("on", JBool true)])).

(** A discovery topic that also ends with the state suffix and has the
    known device [d1] as its third segment. *)
Definition discovery_state : message :=
  Message "smarthome/discovery/d1/state"
    (Encodes (JDict [("device_id", JStr "d7"); ("on", JBool true)])).

(** A manager on which [quiet] listens on [lab/state]. *)
Definition lab_listener : world :=
  exec_all [SubscribeToTopic "lab/state" quiet] initial.

(** A manager on which [faulty], then [quiet], listen on [news]. *)
Definition news_listeners : world :=
  exec_all [SubscribeToTopic "news" faulty; SubscribeToTopic "news" quiet] initial.

Definition news : message := Message "news" (Encodes (JDict [])).


(** A manager on which [quiet] was registered twice on [news]. *)
Definition twice_listening : world :=
  exec_all [SubscribeToTopic "news" quiet; SubscribeToTopic "news" quiet] initial.


(** ** Notions used in the further properties *)

(** Every record of [w] is still there in [w'], under its key, and
    related to what it was by [P]. *)
Definition evolves (P : relation device) : relation world := λ w w',
  ∀ k d, devices w !! k = Some d → ∃ d', devices w' !! k = Some d' ∧ P d d'.

(** The fields the discovery handler fills in are the same. *)
Definition same_metadata : relation device := λ d d',
  d_id d' = d_id d ∧ d_type d' = d_type d ∧ d_name d' = d_name d ∧
  d_capabilities d' = d_capabilities d ∧ d_manufacturer d' = d_manufacturer d ∧
  d_model d' = d_model d ∧ d_firmware_version d' = d_firmware_version d ∧
  d_discovered_at d' = d_discovered_at d.

(** No key of the state is gone, and the keys [last_update], [battery]
    and [signal_strength] are still there if they were. *)
Definition keeps_entries : relation device := λ d d',
  dom (d_state d) ⊆ dom (d_state d') ∧
  (is_Some (d_last_update d) → is_Some (d_last_update d')) ∧
  (is_Some (d_battery d) → is_Some (d_battery d')) ∧
  (is_Some (d_signal_strength d) → is_Some (d_signal_strength d')).

(** Every record is stored under the key of its own id, and that id is
    truthy. *)
Definition well_keyed (w : world) : Prop :=
  ∀ k d, devices w !! k = Some d →
         truthy (d_id d) = true ∧ ∃ a, hashable (d_id d) = Some a ∧ key_of a = k.

(** Every list of callbacks of [w] is a prefix of the list [w'] has for
    the same topic. *)
Definition keeps_callbacks : relation world := λ w w',
  ∀ topic cbs, callbacks w !! topic = Some cbs →
               ∃ more, callbacks w' !! topic = Some (cbs ++ more).

(** The requests of [w] are the first requests of [w']. *)
Definition sent_grows : relation world := λ w w', ∃ more, sent w' = sent w ++ more.

(** The client was asked to subscribe to every topic of the callback
    registry, and a topic has no callback only when the client raises on
    that request. *)
Definition subscribed (w : world) : Prop :=
  ∀ topic cbs, callbacks w !! topic = Some cbs →
               Subscribe topic ∈ sent w ∧
               (cbs = [] → client_raises w (Subscribe topic) = true).

(** The element [[key, value]] of a list payload. *)
Definition pair_item (kv : string * json) : json := JList [JStr kv.1; kv.2].


(** The dict a command hands to [json.dumps]. *)
Definition envelope (now : string) (command params : json) : json :=
  JDict [("command", command); ("params", params); ("timestamp", JStr now)].

(** The world after a command was published and logged. *)
Definition commanded (now : string) (device_id : json) (a : atom) (command params : json)
    (w : world) : world :=
  log_also (LogSent command device_id)
    (send_also (Publish ("smarthome/devices/" +:+ py_str a +:+ "/command")
                  (envelope now command params)) w).


(** A manager that knows one device, whose id has a slash in it. *)
Definition attic_home : world :=
  exec_all
    [OnMessage "2024-05-01T08:00:00"
       (Message "smarthome/discovery/attic"
          (Encodes (JDict [("device_id", JStr "attic/fan"); ("type", JStr "fan")])))]
    initial.


(** A callback that raises [KeyboardInterrupt], and a manager on which it
    listens on [news]. *)
Definition interrupting : callback := Callback 3 (λ _ _, Some KeyboardInterrupt).

Definition interrupted_news : world :=
  exec_all [SubscribeToTopic "news" quiet; SubscribeToTopic "news" interrupting] initial.


(** A discovery message for a device whose id is [+], and the manager
    after it. *)
Definition wildcard_discovery : message :=
  Message "smarthome/discovery/any"
    (Encodes (JDict [("device_id", JStr "+"); ("type", JStr "light")])).

Definition wildcard_home : world :=
  exec_all [OnMessage "2024-05-01T08:00:00" wildcard_discovery] initial.


(** * Properties *)

(** ** Strings *)

Section strings.
Implicit Types s t p r : string.

Lemma append_cons c s t : String c s +:+ t = String c (s +:+ t).
Proof. reflexivity. Qed.

Lemma append_nil_r s : s +:+ "" = s.
Proof. induction s as [|c s IH]; [done | by rewrite append_cons, IH]. Qed.

Lemma append_assoc s t r : (s +:+ t) +:+ r = s +:+ (t +:+ r).
Proof. induction s as [|c s IH]; [done | by rewrite !append_cons, IH]. Qed.

Lemma startswith_append s p : startswith (p +:+ s) p = true.
Proof.
  induction p as [|c p IH]; [reflexivity |].
  rewrite append_cons. simpl. rewrite Ascii.eqb_refl, IH. reflexivity.
Qed.

Lemma startswith_begins s p : startswith s p = true ↔ begins_with s p.
Proof.
  split.
  - revert s. induction p as [|c p IH]; intros s H.
    + by exists s.
    + destruct s as [|b s]; simpl in H; [done |].
      apply andb_prop in H as [Hc Hs].
      apply Ascii.eqb_eq in Hc as ->.
      destruct (IH _ Hs) as [r ->]. by exists r.
  - intros [r ->]. apply startswith_append.
Qed.

Lemma rev_app_append s t : String.rev_app s t = String.rev s +:+ t.
Proof.
  unfold String.rev. revert t.
  induction s as [|c s IH]; intros t; simpl; [done |].
  rewrite (IH (String c "")), (IH (String c t)), append_assoc. done.
Qed.

Lemma rev_append s t : String.rev (s +:+ t) = String.rev t +:+ String.rev s.
Proof.
  unfold String.rev at 1 3. generalize "" as acc.
  induction s as [|c s IH]; intros acc; simpl.
  - apply rev_app_append.
  - by rewrite IH.
Qed.

Lemma rev_involutive s : String.rev (String.rev s) = s.
Proof.
  induction s as [|c s IH]; [done |].
  change (String c s) with (String c "" +:+ s) at 1.
  rewrite rev_append, rev_append, IH. done.
Qed.

Lemma endswith_ends s p : endswith s p = true ↔ ends_with s p.
Proof.
  unfold endswith. rewrite startswith_begins. split.
  - intros [r H]. exists (String.rev r).
    rewrite <- (rev_involutive s), H, rev_append, rev_involutive. done.
  - intros [r ->]. exists (String.rev r). apply rev_append.
Qed.

Lemma split_nonempty sep s : split sep s ≠ [].
Proof.
  destruct s as [|c s]; simpl; [done |].
  destruct (Ascii.eqb c sep); [done |]. by destruct (split sep s).
Qed.

Lemma split_sep_free sep s : sep_free sep s = true → split sep s = [s].
Proof.
  induction s as [|c s IH]; simpl; [done |].
  intros [Hc Hs]%andb_prop. apply negb_true_iff in Hc. rewrite Hc.
  by rewrite (IH Hs).
Qed.

Lemma split_append sep s t :
  sep_free sep s = true →
  split sep (s +:+ String sep t) = s :: split sep t.
Proof.
  induction s as [|c s IH]; simpl.
  - intros _. change ("" +:+ String sep t) with (String sep t).
    simpl. by rewrite Ascii.eqb_refl.
  - intros [Hc Hs]%andb_prop. apply negb_true_iff in Hc.
    rewrite ?append_cons. simpl. by rewrite Hc, (IH Hs).
Qed.

(** [split] undoes [join] on segments without the separator. *)
Lemma split_join sep segs :
  segs ≠ [] → Forall (λ s, sep_free sep s = true) segs →
  split sep (join sep segs) = segs.
Proof.
  intros Hne Hall. induction Hall as [|s segs Hs Hall IH]; [done |].
  destruct segs as [|s' segs].
  - simpl. by apply split_sep_free.
  - change (join sep (s :: s' :: segs)) with (s +:+ String sep (join sep (s' :: segs))).
    rewrite split_append by done. by rewrite IH.
Qed.

(** [join] undoes [split], and no segment holds the separator. *)
Lemma join_split sep s :
  join sep (split sep s) = s ∧ Forall (λ t, sep_free sep t = true) (split sep s).
Proof.
  induction s as [|c s [IHj IHf]]; simpl; [by auto |].
  destruct (Ascii.eqb c sep) eqn:Hc.
  - apply Ascii.eqb_eq in Hc as ->. split.
    + pose proof (split_nonempty sep s) as Hne.
      destruct (split sep s) as [|t ts] eqn:E; [done |].
      simpl in *. by rewrite IHj.
    + by constructor.
  - pose proof (split_nonempty sep s) as Hne.
    destruct (split sep s) as [|t ts] eqn:E; [done |]. split.
    + destruct ts as [|t' ts]; simpl in *; by rewrite <- IHj.
    + inversion IHf; subst. constructor; [|done].
      simpl. by rewrite Hc.
Qed.

(** [split] on the shapes of topic that matter: an empty string, empty
    segments, fewer than three segments. *)
Example split_examples :
  split "/" "" = [""] ∧
  split "/" "a//b/" = ["a"; ""; "b"; ""] ∧
  split "/" "/state" = [""; "state"] ∧
  split "/" "smarthome/devices/d1/state" = ["smarthome"; "devices"; "d1"; "state"].
Proof. repeat split; reflexivity. Qed.

Example endswith_examples :
  endswith "smarthome/devices/d1/state" "/state" = true ∧
  endswith "state" "/state" = false ∧
  endswith "smarthome/devices/d1/status" "/state" = false ∧
  startswith "smarthome/discovery" "smarthome/discovery/" = false.
Proof. repeat split; reflexivity. Qed.

(** The third segment, as [split] and indexing compute it. *)
Lemma index_third_segment topic d :
  split "/" topic !! 2%nat = Some d ↔ third_segment topic d.
Proof.
  split.
  - intros H. exists (split "/" topic).
    destruct (join_split "/" topic) as [Hj Hf]. by rewrite Hj.
  - intros (segs & Hf & -> & H).
    rewrite split_join; [done | | done]. by intros ->.
Qed.
End strings.

(** ** The monad *)

Lemma world_eta w :
  World (client_raises w) (dumps_raises w) (devices w) (callbacks w) (sent w) (calls w)
    (logged w) = w.
Proof. by destruct w. Qed.

Lemma bind_unfold {A B : Type} (m : py A) (f : A → py B) w :
  (m ≫= f) w = match m w with
               | (Ok a, w') => f a w'
               | (Raise e, w') => (Raise e, w')
               end.
Proof. reflexivity. Qed.

(** The callback loop: who is called, and how the loop ends. *)
Lemma for_each_call topic payload cbs w :
  for_each cbs (λ cb, call cb topic payload) w =
    (match first_raise topic payload cbs with
     | None => Ok tt
     | Some e => Raise e
     end,
     call_also topic payload (until_raise topic payload cbs) w).
Proof.
  revert w. induction cbs as [|cb cbs IH]; intros w.
  - unfold call_also. simpl. by rewrite app_nil_r, world_eta.
  - simpl. rewrite bind_unfold. unfold call at 1.
    destruct (cb_body cb topic payload) as [e|] eqn:Hcb.
    + unfold call_also. simpl. done.
    + rewrite IH. unfold call_also. simpl. by rewrite <- app_assoc.
Qed.

Lemma trigger_callbacks_run topic payload w :
  trigger_callbacks topic payload w =
    match callbacks w !! topic with
    | Some cbs =>
        (match first_raise topic payload cbs with
         | None => Ok tt
         | Some e => Raise e
         end,
         call_also topic payload (until_raise topic payload cbs) w)
    | None => (Ok tt, w)
    end.
Proof.
  unfold trigger_callbacks. rewrite bind_unfold. unfold gets.
  destruct (callbacks w !! topic) as [cbs|]; [apply for_each_call | done].
Qed.

(** [_on_message] on an unreadable body: the error is logged. *)
Lemma on_message_undecodable now topic w :
  _on_message now (Message topic Undecodable) w = (Ok tt, log_also (LogError DecodeError) w).
Proof. reflexivity. Qed.

(** [_on_message] on a readable body, by the outcome of the [if]/[elif]
    chain and of the callback loop. *)
Lemma on_message_encodes now topic v w :
  _on_message now (Message topic (Encodes v)) w =
    match route now topic v (log_also (LogReceived topic v) w) with
    | (Raise e, w1) =>
        if is_Exception e then (Ok tt, log_also (LogError e) w1) else (Raise e, w1)
    | (Ok _, w1) =>
        match callbacks w1 !! topic with
        | None => (Ok tt, w1)
        | Some cbs =>
            let w2 := call_also topic v (until_raise topic v cbs) w1 in
            match first_raise topic v cbs with
            | None => (Ok tt, w2)
            | Some e =>
                if is_Exception e then (Ok tt, log_also (LogError e) w2) else (Raise e, w2)
            end
        end
    end.
Proof.
  unfold _on_message, try_except. simpl.
  rewrite (bind_unfold (loads (Encodes v))). simpl.
  rewrite (bind_unfold (logger _)). simpl.
  rewrite bind_unfold. fold (log_also (LogReceived topic v) w).
  destruct (route now topic v (log_also (LogReceived topic v) w)) as [[[]|e] w1].
  - rewrite trigger_callbacks_run.
    destruct (callbacks w1 !! topic) as [cbs|]; [|done].
    destruct (first_raise topic v cbs) as [e|]; [|done].
    by destruct (is_Exception e).
  - by destruct (is_Exception e).
Qed.

(** ** Frame rules: relations every step of a computation respects *)

Section respects.
Context (R : relation world) `{!PreOrder R}.

Lemma respects_ret {A : Type} (a : A) : respects R (mret a).
Proof. intros w. reflexivity. Qed.

Lemma respects_raise {A : Type} e : respects R (raise (A := A) e).
Proof. intros w. reflexivity. Qed.

Lemma respects_gets {A : Type} (f : world → A) : respects R (gets f).
Proof. intros w. reflexivity. Qed.

Lemma respects_modify f : (∀ w, R w (f w)) → respects R (modify f).
Proof. intros H w. apply H. Qed.

Lemma respects_bind {A B : Type} (m : py A) (f : A → py B) :
  respects R m → (∀ a, respects R (f a)) → respects R (m ≫= f).
Proof.
  intros Hm Hf w. rewrite bind_unfold.
  specialize (Hm w). destruct (m w) as [[a|e] w']; simpl in *; [|done].
  transitivity w'; [done | apply Hf].
Qed.

Lemma respects_try_except {A : Type} (body : py A) handler :
  respects R body → (∀ e, respects R (handler e)) → respects R (try_except body handler).
Proof.
  intros Hb Hh w. unfold try_except.
  specialize (Hb w). destruct (body w) as [[a|e] w']; simpl in *; [done |].
  destruct (is_Exception e); [|done].
  transitivity w'; [done | apply Hh].
Qed.

Lemma respects_for_each {A : Type} (l : list A) body :
  (∀ x, respects R (body x)) → respects R (for_each l body).
Proof.
  intros Hb. induction l as [|x l IH]; simpl.
  - apply respects_ret.
  - apply respects_bind; [apply Hb | intros _; apply IH].
Qed.

Lemma respects_index {A : Type} (l : list A) i : respects R (index l i).
Proof. unfold index. destruct (l !! i); [apply respects_ret | apply respects_raise]. Qed.

Lemma respects_hash v : respects R (hash v).
Proof. unfold hash. destruct (hashable v); [apply respects_ret | apply respects_raise]. Qed.

Lemma respects_payload_get payload key default :
  respects R (payload_get payload key default).
Proof. destruct payload; first [apply respects_ret | apply respects_raise]. Qed.

Lemma respects_loads b : respects R (loads b).
Proof. destruct b; [apply respects_raise | apply respects_ret]. Qed.

Lemma respects_json_dumps v : respects R (json_dumps v).
Proof. intros w. unfold json_dumps. destruct (dumps_raises w v); reflexivity. Qed.

Lemma respects_client_request r : (∀ w, R w (send_also r w)) → respects R (client_request r).
Proof. intros H w. unfold client_request. destruct (client_raises w r); apply H. Qed.
End respects.

#[global] Instance same_preorder {X : Type} (f : world → X) : PreOrder (same f).
Proof.
  split.
  - intros w. reflexivity.
  - intros w1 w2 w3 H12 H23. unfold same in *. congruence.
Qed.

#[global] Instance extends_preorder : PreOrder extends.
Proof.
  split.
  - intros w k d H. eauto.
  - intros w1 w2 w3 H12 H23 k d H.
    destruct (H12 _ _ H) as (d2 & H2 & E2).
    destruct (H23 _ _ H2) as (d3 & H3 & E3).
    exists d3. split; [done | congruence].
Qed.

Lemma extends_same_devices w w' : devices w' = devices w → extends w w'.
Proof. intros E k d H. exists d. by rewrite E. Qed.

(** One step of a frame proof: split the computation at its outermost
    construct; [side] closes what a primitive asks for. *)
Ltac frame_step side :=
  lazymatch goal with
  | |- respects ?R (mbind _ _) => apply (respects_bind R _); [|intros ?]
  | |- respects ?R (mret _) => apply (respects_ret R _)
  | |- respects ?R (raise _) => apply (respects_raise R _)
  | |- respects ?R (gets _) => apply (respects_gets R _)
  | |- respects ?R (index _ _) => apply (respects_index R _)
  | |- respects ?R (hash _) => apply (respects_hash R _)
  | |- respects ?R (loads _) => apply (respects_loads R _)
  | |- respects ?R (payload_get _ _ _) => apply (respects_payload_get R _)
  | |- respects ?R (for_each _ _) => apply (respects_for_each R _); intros ?
  | |- respects ?R (try_except _ _) => apply (respects_try_except R _); [|intros ?]
  | |- respects _ (modify _) => apply respects_modify; intros ?; side
  | |- respects _ (logger _) => apply respects_modify; intros ?; side
  | |- respects ?R (json_dumps _) => apply (respects_json_dumps R _)
  | |- respects ?R (client_subscribe _) =>
      apply (respects_client_request R _); intros ?; side
  | |- respects ?R (client_publish _ _) =>
      apply (respects_client_request R _); intros ?; side
  | |- respects _ (assign _ _) => apply respects_modify; intros ?; side
  | |- respects _ (if ?b then _ else _) => destruct b
  | |- respects _ (match ?x with _ => _ end) => destruct x
  end.

Ltac frame side := cbv zeta; repeat frame_step side.

(** What does not touch the registry. *)
Ltac same_field := reflexivity.

Lemma control_device_same_devices now device_id command params :
  respects (same devices) (control_device now device_id command params).
Proof. unfold control_device. frame same_field. Qed.

Lemma create_scene_same_devices now scene_name device_states :
  respects (same devices) (create_scene now scene_name device_states).
Proof. unfold create_scene. frame same_field. Qed.

Lemma activate_scene_same_devices now scene_name :
  respects (same devices) (activate_scene now scene_name).
Proof. unfold activate_scene. frame same_field. Qed.

Lemma create_automation_same_devices now automation_name trigger conditions actions :
  respects (same devices)
    (create_automation now automation_name trigger conditions actions).
Proof. unfold create_automation. frame same_field. Qed.

Lemma get_energy_usage_same_devices now device_id :
  respects (same devices) (get_energy_usage now device_id).
Proof. unfold get_energy_usage. frame same_field. Qed.

Lemma subscribe_to_topic_same_devices topic cb :
  respects (same devices) (subscribe_to_topic topic cb).
Proof. unfold subscribe_to_topic. frame same_field. Qed.

Lemma get_devices_same_world device_type w : (get_devices device_type w).2 = w.
Proof. unfold get_devices. destruct device_type as [t|]; [destruct (truthy (JStr t))|]; done. Qed.

Lemma get_device_same_world device_id w : (get_device device_id w).2 = w.
Proof. unfold get_device, hash. by destruct (hashable device_id). Qed.

Lemma on_connect_same_devices rc : respects (same devices) (_on_connect rc).
Proof. unfold _on_connect. frame same_field. Qed.

Lemma on_disconnect_same_devices rc : respects (same devices) (_on_disconnect rc).
Proof. unfold _on_disconnect. frame same_field. Qed.

(** ** What each handler computes *)

(** Run a computation as far as its tests allow. *)
Ltac py_run :=
  cbv [mbind mret py_bind py_ret gets modify raise logger client_subscribe
       client_publish client_request json_dumps assign hash index loads payload_get];
  cbv beta iota zeta.

Lemma alter_present {V : Type} (f : V → V) (k : pykey) (m : gmap pykey V) v :
  m !! k = Some v → alter f k m = <[k := f v]> m.
Proof.
  intros H. apply map_eq. intros j.
  rewrite lookup_alter, lookup_insert.
  destruct (decide (k = j)) as [<-|]; [by rewrite H | done].
Qed.

Lemma handle_device_discovery_run now topic payload w :
  _handle_device_discovery now topic payload w =
    match payload with
    | JDict kvs =>
        let device_id := get_or JNull "device_id" kvs in
        if truthy device_id then
          match hashable device_id with
          | None => (Raise TypeError, w)
          | Some a =>
              match devices w !! key_of a with
              | Some _ => (Ok tt, w)
              | None =>
                  let filter := "smarthome/devices/" +:+ py_str a +:+ "/#" in
                  (if client_raises w (Subscribe filter) then Raise ValueError else Ok tt,
                   World (client_raises w) (dumps_raises w)
                     (<[key_of a := discovered now device_id kvs]> (devices w))
                     (callbacks w)
                     (sent w ++ [Subscribe filter])
                     (calls w)
                     (logged w ++ [LogDiscovered (get_or JNull "name" kvs) device_id]))
              end
          end
        else (Ok tt, w)
    | _ => (Raise AttributeError, w)
    end.
Proof.
  unfold _handle_device_discovery.
  destruct payload as [| | | | |kvs]; try reflexivity.
  py_run.
  destruct (truthy (get_or JNull "device_id" kvs)); [|done].
  destruct (hashable (get_or JNull "device_id" kvs)) as [a|]; [|done].
  destruct (devices w !! key_of a); [done |].
  simpl. by destruct (client_raises w _).
Qed.

Lemma handle_device_state_update_run now device_id payload w :
  _handle_device_state_update now device_id payload w =
    match devices w !! KStr device_id with
    | None => (Ok tt, w)
    | Some d =>
        match dict_update payload (d_state d) with
        | (Ok _, st) =>
            (Ok tt,
             World (client_raises w) (dumps_raises w)
               (<[KStr device_id := with_last_update now (with_state (λ _, st) d)]>
                  (devices w))
               (callbacks w) (sent w) (calls w)
               (logged w ++ [LogStateUpdated device_id payload]))
        | (Raise e, st) =>
            (Raise e, set_devices <[KStr device_id := with_state (λ _, st) d]> w)
        end
    end.
Proof.
  unfold _handle_device_state_update, state_update. py_run.
  destruct (devices w !! KStr device_id) as [d|] eqn:Hk; [|done].
  rewrite Hk.
  destruct (dict_update payload (d_state d)) as [[[]|e] st]; [|done].
  unfold set_devices. simpl.
  rewrite (alter_present _ _ _ (with_state (λ _, st) d)) by apply lookup_insert_eq.
  by rewrite insert_insert_eq.
Qed.

Lemma handle_device_status_run device_id payload w :
  _handle_device_status device_id payload w =
    match devices w !! KStr device_id with
    | None => (Ok tt, w)
    | Some d =>
        match payload with
        | JDict kvs =>
            (Ok tt,
             World (client_raises w) (dumps_raises w)
               (<[KStr device_id :=
                    with_signal_strength (get_or JNull "signal_strength" kvs)
                      (with_battery (get_or JNull "battery" kvs)
                         (with_online (get_or (JBool false) "online" kvs) d))]>
                  (devices w))
               (callbacks w) (sent w) (calls w)
               (logged w ++ [LogStatusUpdated device_id payload]))
        | _ => (Raise AttributeError, w)
        end
    end.
Proof.
  unfold _handle_device_status. py_run.
  destruct (devices w !! KStr device_id) as [d|] eqn:Hk; [|done].
  destruct payload as [| | | | |kvs]; try reflexivity.
  unfold set_devices. simpl.
  rewrite (alter_present _ _ (devices w) d) by done.
  rewrite (alter_present (with_battery _) _ _
             (with_online (get_or (JBool false) "online" kvs) d))
    by apply lookup_insert_eq.
  rewrite insert_insert_eq.
  rewrite (alter_present _ _ _
             (with_battery (get_or JNull "battery" kvs)
                (with_online (get_or (JBool false) "online" kvs) d)))
    by apply lookup_insert_eq.
  by rewrite insert_insert_eq.
Qed.

(** The [if]/[elif] chain, branch by branch. *)
Lemma route_discovery now topic payload :
  startswith topic "smarthome/discovery/" = true →
  route now topic payload = _handle_device_discovery now topic payload.
Proof. intros H. unfold route. by rewrite H. Qed.

Lemma route_state now topic payload w :
  startswith topic "smarthome/discovery/" = false →
  endswith topic "/state" = true →
  route now topic payload w =
    match split "/" topic !! 2%nat with
    | Some device_id => _handle_device_state_update now device_id payload w
    | None => (Raise IndexError, w)
    end.
Proof.
  intros H1 H2. unfold route. rewrite H1, H2, bind_unfold. unfold index.
  by destruct (split "/" topic !! 2%nat).
Qed.

Lemma route_status now topic payload w :
  startswith topic "smarthome/discovery/" = false →
  endswith topic "/state" = false →
  endswith topic "/status" = true →
  route now topic payload w =
    match split "/" topic !! 2%nat with
    | Some device_id => _handle_device_status device_id payload w
    | None => (Raise IndexError, w)
    end.
Proof.
  intros H1 H2 H3. unfold route. rewrite H1, H2, H3, bind_unfold. unfold index.
  by destruct (split "/" topic !! 2%nat).
Qed.

Lemma route_other now topic payload :
  startswith topic "smarthome/discovery/" = false →
  endswith topic "/state" = false →
  endswith topic "/status" = false →
  route now topic payload = mret tt.
Proof. intros H1 H2 H3. unfold route. by rewrite H1, H2, H3. Qed.

(** ** Commands *)

(** What [control_device] does, for an id that can be a key: the
    registry check, then [json.dumps], then the client's [publish], and
    [True] when neither raised. *)
Lemma control_device_run now device_id command params a w :
  hashable device_id = Some a →
  control_device now device_id command params w =
    match devices w !! key_of a with
    | None => (Raise ValueError, w)
    | Some _ =>
        let body := envelope now command (if truthy params then params else JDict []) in
        let request := Publish ("smarthome/devices/" +:+ py_str a +:+ "/command") body in
        if dumps_raises w body then (Raise ValueError, w)
        else if client_raises w request then (Raise ValueError, send_also request w)
        else (Ok true, log_also (LogSent command device_id) (send_also request w))
    end.
Proof.
  intros Ha. unfold control_device, envelope. py_run. rewrite Ha.
  destruct (devices w !! key_of a) as [d|]; [|done].
  cbv zeta.
  destruct (dumps_raises w _); [done|].
  by destruct (client_raises w _).
Qed.

(** C1. [control_device] on an id that is not a key of the registry
    raises the unknown-device error ([ValueError]), hands nothing to the
    client and leaves the world as it was.  On a registered id it builds
    the dict with exactly the keys [command], [params] and [timestamp]
    and, when [json.dumps] takes it, hands one publish of it on the
    command topic of that device to the client; it returns [True] when
    the client takes the publish too.  When [json.dumps] or the client
    raises, so does [control_device], and nothing is logged.  The
    registry is as it was in each case. *)
Theorem control_device_spec now device_id command params a w :
  hashable device_id = Some a →
  match devices w !! key_of a with
  | None => control_device now device_id command params w = (Raise ValueError, w)
  | Some _ =>
      ∃ envelope,
        envelope.*1 = ["command"; "params"; "timestamp"] ∧
        dict_get "command" envelope = Some command ∧
        dict_get "params" envelope = Some (if truthy params then params else JDict []) ∧
        dict_get "timestamp" envelope = Some (JStr now) ∧
        let request :=
          Publish ("smarthome/devices/" +:+ py_str a +:+ "/command") (JDict envelope) in
        control_device now device_id command params w =
          if dumps_raises w (JDict envelope) then (Raise ValueError, w)
          else if client_raises w request then (Raise ValueError, send_also request w)
          else (Ok true, log_also (LogSent command device_id) (send_also request w))
  end.
Proof.
  intros Ha. rewrite (control_device_run _ _ _ _ a) by done.
  destruct (devices w !! key_of a) as [d|]; [|done].
  exists [("command", command); ("params", if truthy params then params else JDict []);
          ("timestamp", JStr now)].
  do 4 (split; [reflexivity |]). reflexivity.
Qed.

Lemma control_device_spec_witness :
  control_device "t" (JStr "d2") (JStr "turn_on") JNull home = (Raise ValueError, home) ∧
  ∃ envelope,
    envelope.*1 = ["command"; "params"; "timestamp"] ∧
    dict_get "command" envelope = Some (JStr "turn_on") ∧
    dict_get "params" envelope = Some (JDict []) ∧
    dict_get "timestamp" envelope = Some (JStr "t") ∧
    let request := Publish "smarthome/devices/d1/command" (JDict envelope) in
    control_device "t" (JStr "d1") (JStr "turn_on") JNull home =
      if dumps_raises home (JDict envelope) then (Raise ValueError, home)
      else if client_raises home request then (Raise ValueError, send_also request home)
      else (Ok true, log_also (LogSent (JStr "turn_on") (JStr "d1")) (send_also request home)).
Proof.
  split.
  - exact (control_device_spec "t" (JStr "d2") (JStr "turn_on") JNull (AStr "d2") home
             eq_refl).
  - exact (control_device_spec "t" (JStr "d1") (JStr "turn_on") JNull (AStr "d1") home
             eq_refl).
Defined.

(** C1 does not hold for every registered id.  The id [+] is registered
    by a discovery message, paho taking the filter
    [smarthome/devices/+/#]; a command to it is not published: paho
    raises [ValueError] on the topic [smarthome/devices/+/command], and
    [control_device] raises instead of returning [True]. *)
Lemma control_device_wildcard_id_raises :
  is_Some (devices wildcard_home !! KStr "+") ∧
  raised (_on_message "2024-05-01T08:00:00" wildcard_discovery) initial = None ∧
  control_device "t" (JStr "+") (JStr "turn_on") JNull wildcard_home =
    (Raise ValueError,
     send_also
       (Publish "smarthome/devices/+/command" (envelope "t" (JStr "turn_on") (JDict [])))
       wildcard_home).
Proof. split; [by eexists | split; reflexivity]. Qed.

(** ** The handlers never touch the callback registry or call a callback *)

Lemma respects_state_update (R : relation world) `{!PreOrder R} k payload :
  (∀ f w, R w (set_devices f w)) → respects R (state_update k payload).
Proof.
  intros H w. unfold state_update.
  destruct (devices w !! k) as [d|]; [|reflexivity].
  destruct (dict_update payload (d_state d)). apply H.
Qed.

Lemma route_same_callbacks now topic payload :
  respects (same callbacks) (route now topic payload).
Proof.
  unfold route, _handle_device_discovery, _handle_device_state_update, _handle_device_status.
  frame same_field.
  all: by apply (respects_state_update (same callbacks)).
Qed.

Lemma route_same_calls now topic payload :
  respects (same calls) (route now topic payload).
Proof.
  unfold route, _handle_device_discovery, _handle_device_state_update, _handle_device_status.
  frame same_field.
  all: by apply (respects_state_update (same calls)).
Qed.

(** ** No record is ever deleted or given another id *)

Lemma extends_insert_fresh w w' k d :
  devices w !! k = None → devices w' = <[k := d]> (devices w) → extends w w'.
Proof.
  intros Hk E j dj Hj. exists dj. split; [|done].
  rewrite E, lookup_insert_ne; [done | congruence].
Qed.

Lemma extends_insert_same_id w w' k d d' :
  devices w !! k = Some d → d_id d' = d_id d →
  devices w' = <[k := d']> (devices w) → extends w w'.
Proof.
  intros Hk Hid E j dj Hj. rewrite E.
  destruct (decide (k = j)) as [<-|Hne].
  - exists d'. rewrite lookup_insert_eq. split; [done | congruence].
  - exists dj. by rewrite lookup_insert_ne.
Qed.

Lemma handle_device_discovery_extends now topic payload :
  respects extends (_handle_device_discovery now topic payload).
Proof.
  intros w. rewrite handle_device_discovery_run.
  destruct payload as [| | | | |kvs]; try reflexivity. simpl.
  destruct (truthy _); [|reflexivity].
  destruct (hashable _) as [a|]; [|reflexivity].
  destruct (devices w !! key_of a) eqn:Hk; [reflexivity |].
  eapply extends_insert_fresh; [exact Hk | reflexivity].
Qed.

Lemma handle_device_state_update_extends now device_id payload :
  respects extends (_handle_device_state_update now device_id payload).
Proof.
  intros w. rewrite handle_device_state_update_run.
  destruct (devices w !! KStr device_id) as [d|] eqn:Hk; [|reflexivity].
  destruct (dict_update payload (d_state d)) as [[[]|e] st];
    (eapply extends_insert_same_id; [exact Hk | | reflexivity]; reflexivity).
Qed.

Lemma handle_device_status_extends device_id payload :
  respects extends (_handle_device_status device_id payload).
Proof.
  intros w. rewrite handle_device_status_run.
  destruct (devices w !! KStr device_id) as [d|] eqn:Hk; [|reflexivity].
  destruct payload as [| | | | |kvs]; try reflexivity.
  eapply extends_insert_same_id; [exact Hk | | reflexivity]; reflexivity.
Qed.

Lemma route_extends now topic payload : respects extends (route now topic payload).
Proof.
  unfold route.
  destruct (startswith _ _); [apply handle_device_discovery_extends |].
  destruct (endswith topic "/state").
  { apply (respects_bind extends _); [apply (respects_index extends _) |].
    intros d. apply handle_device_state_update_extends. }
  destruct (endswith topic "/status"); [|apply (respects_ret extends _)].
  apply (respects_bind extends _); [apply (respects_index extends _) |].
  intros d. apply handle_device_status_extends.
Qed.

Lemma trigger_callbacks_same_devices topic payload :
  respects (same devices) (trigger_callbacks topic payload).
Proof.
  intros w. rewrite trigger_callbacks_run.
  by destruct (callbacks w !! topic).
Qed.

Lemma same_devices_extends {A : Type} (m : py A) :
  respects (same devices) m → respects extends m.
Proof. intros H w. apply extends_same_devices, H. Qed.

Lemma on_message_extends now msg : respects extends (_on_message now msg).
Proof.
  unfold _on_message.
  apply (respects_try_except extends _).
  - cbv zeta. apply (respects_bind extends _); [apply (respects_loads extends _) |].
    intros payload. apply (respects_bind extends _).
    { apply same_devices_extends. by apply respects_modify. }
    intros _. apply (respects_bind extends _); [apply route_extends |].
    intros _. apply same_devices_extends, trigger_callbacks_same_devices.
  - intros e. apply same_devices_extends. by apply respects_modify.
Qed.

Lemma exec_extends o w : extends w (exec o w).
Proof.
  destruct o; simpl; unfold after.
  - apply extends_same_devices, on_connect_same_devices.
  - apply extends_same_devices, on_disconnect_same_devices.
  - apply on_message_extends.
  - by rewrite get_devices_same_world.
  - by rewrite get_device_same_world.
  - apply extends_same_devices, control_device_same_devices.
  - apply extends_same_devices, control_device_same_devices.
  - apply extends_same_devices, control_device_same_devices.
  - apply extends_same_devices, control_device_same_devices.
  - apply extends_same_devices, control_device_same_devices.
  - apply extends_same_devices, control_device_same_devices.
  - apply extends_same_devices, control_device_same_devices.
  - apply extends_same_devices, control_device_same_devices.
  - apply extends_same_devices, create_scene_same_devices.
  - apply extends_same_devices, activate_scene_same_devices.
  - apply extends_same_devices, create_automation_same_devices.
  - apply extends_same_devices, subscribe_to_topic_same_devices.
  - apply extends_same_devices, get_energy_usage_same_devices.
Qed.

Lemma exec_all_extends os w : extends w (exec_all os w).
Proof.
  revert w. induction os as [|o os IH]; intros w; simpl.
  - reflexivity.
  - transitivity (exec o w); [apply exec_extends | apply IH].
Qed.

(** C9. Every operation of the manager keeps every key of the registry,
    and the record under a key keeps its id: nothing is deleted, nothing is
    replaced by the record of another device. *)
Theorem registry_keys_grow o w :
  dom (devices w) ⊆ dom (devices (exec o w)) ∧
  ∀ k d, devices w !! k = Some d →
         ∃ d', devices (exec o w) !! k = Some d' ∧ d_id d' = d_id d.
Proof.
  pose proof (exec_extends o w) as H. split; [|exact H].
  intros k [d Hd]%elem_of_dom.
  destruct (H _ _ Hd) as (d' & Hd' & _).
  apply elem_of_dom. eauto.
Qed.

(** ** Discovery *)

Lemma get_or_present default key kvs v :
  dict_get key kvs = Some v → get_or default key kvs = v.
Proof. intros H. unfold get_or. by rewrite H. Qed.

(** The registry, the callback registry and the requests after a message
    are those the [if]/[elif] chain leaves: the callback loop and the
    error handler add to the calls and to the log only. *)
Lemma on_message_after_route now topic v w :
  let w1 := after (route now topic v) (log_also (LogReceived topic v) w) in
  let w' := after (_on_message now (Message topic (Encodes v))) w in
  devices w' = devices w1 ∧ callbacks w' = callbacks w1 ∧ sent w' = sent w1.
Proof.
  unfold after. rewrite on_message_encodes.
  destruct (route now topic v (log_also (LogReceived topic v) w)) as [[[]|e] w1]; simpl.
  - destruct (callbacks w1 !! topic) as [cbs|]; [|done].
    destruct (first_raise topic v cbs) as [e|]; [|done].
    by destruct (is_Exception e).
  - by destruct (is_Exception e).
Qed.

(** A discovery message for a fresh id: one record, one subscription. *)
Lemma discovery_fresh now topic kvs device_id a w :
  startswith topic "smarthome/discovery/" = true →
  dict_get "device_id" kvs = Some device_id →
  truthy device_id = true →
  hashable device_id = Some a →
  devices w !! key_of a = None →
  let w1 := after (_on_message now (Message topic (Encodes (JDict kvs)))) w in
  devices w1 = <[key_of a := discovered now device_id kvs]> (devices w) ∧
  sent w1 = sent w ++ [Subscribe ("smarthome/devices/" +:+ py_str a +:+ "/#")].
Proof.
  intros Ht Hget Htruthy Ha Hk w1.
  destruct (on_message_after_route now topic (JDict kvs) w) as (Hd & _ & Hs).
  subst w1. rewrite Hd, Hs. unfold after.
  rewrite (route_discovery _ _ _ Ht), handle_device_discovery_run.
  cbv zeta. rewrite (get_or_present _ _ _ _ Hget), Htruthy, Ha.
  simpl. by rewrite Hk.
Qed.

(** A discovery message for a known id changes neither the registry nor
    the requests. *)
Lemma discovery_known now topic kvs device_id a d w :
  startswith topic "smarthome/discovery/" = true →
  dict_get "device_id" kvs = Some device_id →
  hashable device_id = Some a →
  devices w !! key_of a = Some d →
  let w1 := after (_on_message now (Message topic (Encodes (JDict kvs)))) w in
  devices w1 = devices w ∧ sent w1 = sent w.
Proof.
  intros Ht Hget Ha Hk w1.
  destruct (on_message_after_route now topic (JDict kvs) w) as (Hd & _ & Hs).
  subst w1. rewrite Hd, Hs. unfold after.
  rewrite (route_discovery _ _ _ Ht), handle_device_discovery_run.
  cbv zeta. rewrite (get_or_present _ _ _ _ Hget), Ha.
  destruct (truthy device_id); [|done].
  simpl. by rewrite Hk.
Qed.

(** C2, as the code has it.  A discovery message whose [device_id] is
    truthy and hashable (any non-empty string is) and not yet a key of
    the registry creates exactly one record, under that id, and asks the
    client for exactly one subscription, to the wildcard topic of the
    device.  Whatever the manager does next, a later discovery message
    with the same [device_id] changes neither the registry nor the
    requests, and the record still has the id it was created with. *)
Theorem discovery_once now topic kvs device_id a w :
  startswith topic "smarthome/discovery/" = true →
  dict_get "device_id" kvs = Some device_id →
  truthy device_id = true →
  hashable device_id = Some a →
  devices w !! key_of a = None →
  let w1 := after (_on_message now (Message topic (Encodes (JDict kvs)))) w in
  devices w1 = <[key_of a := discovered now device_id kvs]> (devices w) ∧
  sent w1 = sent w ++ [Subscribe ("smarthome/devices/" +:+ py_str a +:+ "/#")] ∧
  ∀ os now' topic' kvs',
    startswith topic' "smarthome/discovery/" = true →
    dict_get "device_id" kvs' = Some device_id →
    let w2 := exec_all os w1 in
    let w3 := after (_on_message now' (Message topic' (Encodes (JDict kvs')))) w2 in
    devices w3 = devices w2 ∧ sent w3 = sent w2 ∧
    ∃ d, devices w3 !! key_of a = Some d ∧ d_id d = device_id.
Proof.
  intros Ht Hget Htruthy Ha Hk w1.
  destruct (discovery_fresh now topic kvs device_id a w Ht Hget Htruthy Ha Hk)
    as [Hd Hs].
  fold w1 in Hd, Hs. split; [done |]. split; [done |].
  intros os now' topic' kvs' Ht' Hget' w2 w3.
  assert (devices w1 !! key_of a = Some (discovered now device_id kvs)) as H1
    by (rewrite Hd; apply lookup_insert_eq).
  destruct (exec_all_extends os w1 _ _ H1) as (d & H2 & Hid). fold w2 in H2.
  destruct (discovery_known now' topic' kvs' device_id a d w2 Ht' Hget' Ha H2)
    as [Hd' Hs'].
  fold w3 in Hd', Hs'. split; [done |]. split; [done |].
  exists d. by rewrite Hd'.
Qed.

Lemma discovery_once_witness :
  devices (after (_on_message "2024-05-01T08:00:00" lamp_discovery) initial)
    = <[KStr "d1" := lamp]> ∅ ∧
  sent (after (_on_message "2024-05-01T08:00:00" lamp_discovery) initial)
    = [Subscribe "smarthome/devices/d1/#"] ∧
  devices (after (_on_message "2024-05-02T09:30:00" lamp_discovery)
             (exec_all [OnMessage "2024-05-01T08:05:00" lamp_on]
                (after (_on_message "2024-05-01T08:00:00" lamp_discovery) initial)))
    = devices (exec_all [OnMessage "2024-05-01T08:05:00" lamp_on]
                 (after (_on_message "2024-05-01T08:00:00" lamp_discovery) initial)).
Proof.
  destruct (discovery_once "2024-05-01T08:00:00" "smarthome/discovery/d1" lamp_payload
              (JStr "d1") (AStr "d1") initial eq_refl eq_refl eq_refl eq_refl eq_refl)
    as (H1 & H2 & H3).
  split; [exact H1 |]. split; [exact H2 |].
  destruct (H3 [OnMessage "2024-05-01T08:05:00" lamp_on] "2024-05-02T09:30:00"
              "smarthome/discovery/d1" lamp_payload eq_refl eq_refl) as (H4 & _).
  exact H4.
Defined.

(** C2 does not hold for every [device_id] a payload can carry: the empty
    string is not yet a key of the registry, and the discovery message
    that carries it creates no record and asks for no subscription. *)
Lemma discovery_empty_id_creates_nothing :
  msg_payload nameless_discovery
    = Encodes (JDict [("device_id", JStr ""); ("type", JStr "light")]) ∧
  devices initial !! KStr "" = None ∧
  devices (after (_on_message "2024-05-01T08:00:00" nameless_discovery) initial) = ∅ ∧
  sent (after (_on_message "2024-05-01T08:00:00" nameless_discovery) initial) = [].
Proof. repeat split; reflexivity. Qed.

(** The falsy values: [None], [False], [0], [''], [[]] and [{}]. *)
Lemma falsy_values v :
  truthy v = false ↔
  v = JNull ∨ v = JBool false ∨ v = JInt 0 ∨ v = JStr "" ∨ v = JList [] ∨ v = JDict [].
Proof.
  split.
  - destruct v as [|[]|z|s|[|x l]|[|x l]]; simpl; intros H; try done; auto.
    + apply negb_false_iff, Z.eqb_eq in H as ->. auto.
    + apply negb_false_iff, String.eqb_eq in H as ->. auto 6.
    + auto 6.
    + auto 7.
  - intros [->|[->|[->|[->|[->| ->]]]]]; reflexivity.
Qed.

(** C10. A discovery message whose payload binds [device_id] to a falsy
    value (the empty string, [0], [null], [false], an empty list or dict)
    is handled as one without the key: the handler returns with the world
    as it was, so no record is created and no subscription requested, and
    after the whole message the registry, the callback registry and the
    requests are unchanged. *)
Theorem discovery_falsy_id now topic kvs device_id w :
  startswith topic "smarthome/discovery/" = true →
  dict_get "device_id" kvs = Some device_id →
  truthy device_id = false →
  route now topic (JDict kvs) w = (Ok tt, w) ∧
  (∀ kvs', dict_get "device_id" kvs' = None →
           route now topic (JDict kvs') w = (Ok tt, w)) ∧
  let w1 := after (_on_message now (Message topic (Encodes (JDict kvs)))) w in
  devices w1 = devices w ∧ callbacks w1 = callbacks w ∧ sent w1 = sent w.
Proof.
  intros Ht Hget Hfalsy.
  assert (∀ w0, route now topic (JDict kvs) w0 = (Ok tt, w0)) as Hroute.
  { intros w0. rewrite (route_discovery _ _ _ Ht), handle_device_discovery_run.
    cbv zeta. by rewrite (get_or_present _ _ _ _ Hget), Hfalsy. }
  split; [apply Hroute |]. split.
  - intros kvs' Hnone.
    rewrite (route_discovery _ _ _ Ht), handle_device_discovery_run.
    unfold get_or. by rewrite Hnone.
  - intros w1.
    destruct (on_message_after_route now topic (JDict kvs) w) as (Hd & Hc & Hs).
    subst w1. rewrite Hd, Hc, Hs. unfold after. by rewrite Hroute.
Qed.

Lemma discovery_falsy_id_witness :
  route "2024-05-01T08:00:00" "smarthome/discovery/new"
    (JDict [("device_id", JStr ""); ("type", JStr "light")]) home = (Ok tt, home) ∧
  devices (after (_on_message "2024-05-01T08:00:00" nameless_discovery) home)
    = devices home.
Proof.
  destruct (discovery_falsy_id "2024-05-01T08:00:00" "smarthome/discovery/new"
              [("device_id", JStr ""); ("type", JStr "light")] (JStr "") home
              eq_refl eq_refl eq_refl) as (H1 & _ & H2 & _).
  split; [exact H1 | exact H2].
Defined.

(** ** State updates *)

Lemma merge_lookup_other kvs (st : gmap pykey json) k :
  (∀ key, key ∈ kvs.*1 → k ≠ KStr key) → merge kvs st !! k = st !! k.
Proof.
  unfold merge. revert st. induction kvs as [|[k0 v0] kvs IH]; intros st H; [done |].
  simpl. rewrite IH.
  - apply lookup_insert_ne. intros E. apply (H k0); [left | done].
  - intros key Hkey. apply H. by right.
Qed.

Lemma merge_lookup_in kvs (st : gmap pykey json) key v :
  NoDup kvs.*1 → (key, v) ∈ kvs → merge kvs st !! KStr key = Some v.
Proof.
  revert st. induction kvs as [|[k0 v0] kvs IH]; intros st Hnd Hin.
  { by apply elem_of_nil in Hin. }
  apply NoDup_cons in Hnd as [Hfresh Hnd].
  apply elem_of_cons in Hin as [E|Hin].
  - injection E as -> ->.
    change (merge ((k0, v0) :: kvs) st) with (merge kvs (<[KStr k0 := v0]> st)).
    rewrite merge_lookup_other; [apply lookup_insert_eq |].
    intros key Hkey E. injection E as ->. done.
  - apply (IH _ Hnd Hin).
Qed.

(** C3. A state message for a known device upserts every pair of the
    payload into the state of that device, leaves the other keys of the
    state as they were and sets [last_update] to the current time; every
    other field and every other record stays.  A state message for an
    unknown device leaves the whole registry as it was. *)
Theorem state_update_merges now topic device_id w :
  startswith topic "smarthome/discovery/" = false →
  endswith topic "/state" = true →
  split "/" topic !! 2%nat = Some device_id →
  (∀ kvs d,
     devices w !! KStr device_id = Some d →
     let w1 := after (_on_message now (Message topic (Encodes (JDict kvs)))) w in
     let d1 := with_last_update now (with_state (merge kvs) d) in
     devices w1 = <[KStr device_id := d1]> (devices w) ∧
     d_last_update d1 = Some now ∧
     (∀ key v, NoDup kvs.*1 → (key, v) ∈ kvs → d_state d1 !! KStr key = Some v) ∧
     (∀ k, (∀ key, key ∈ kvs.*1 → k ≠ KStr key) → d_state d1 !! k = d_state d !! k)) ∧
  (∀ payload,
     devices w !! KStr device_id = None →
     devices (after (_on_message now (Message topic (Encodes payload))) w) = devices w).
Proof.
  intros Hdisc Hstate Hseg. split.
  - intros kvs d Hk w1 d1. split; [|split; [done | split]].
    + destruct (on_message_after_route now topic (JDict kvs) w) as (Hd & _).
      subst w1. rewrite Hd. unfold after.
      rewrite (route_state _ _ _ _ Hdisc Hstate), Hseg.
      rewrite handle_device_state_update_run. simpl. by rewrite Hk.
    + intros key v Hnd Hin. by apply merge_lookup_in.
    + intros k Hk'. by apply merge_lookup_other.
  - intros payload Hk.
    destruct (on_message_after_route now topic payload w) as (Hd & _).
    rewrite Hd. unfold after.
    rewrite (route_state _ _ _ _ Hdisc Hstate), Hseg.
    rewrite handle_device_state_update_run. simpl. by rewrite Hk.
Qed.

Lemma state_update_merges_witness :
  devices (after (_on_message "2024-05-01T08:05:00" lamp_on) home)
    = <[KStr "d1" := with_last_update "2024-05-01T08:05:00"
                       (with_state (merge [("on", JBool true)]) lamp)]> (devices home) ∧
  devices (after (_on_message "2024-05-01T08:05:00"
                    (Message "smarthome/devices/d2/state"
                       (Encodes (JDict [("on", JBool true)])))) home)
    = devices home.
Proof.
  split.
  - destruct (state_update_merges "2024-05-01T08:05:00" "smarthome/devices/d1/state"
                "d1" home eq_refl eq_refl eq_refl) as [H _].
    destruct (H [("on", JBool true)] lamp eq_refl) as [H1 _]. exact H1.
  - destruct (state_update_merges "2024-05-01T08:05:00" "smarthome/devices/d2/state"
                "d2" home eq_refl eq_refl eq_refl) as [_ H].
    exact (H (JDict [("on", JBool true)]) eq_refl).
Defined.

(** ** Status reports *)

(** C4. A status message for a known device replaces [online] (by
    [False] when the payload has no such key), [battery] and
    [signal_strength] (by [None] when the payload has no such key) with
    what the payload holds; every other field of the record, the state
    among them, and every other record stay.  A status message for an
    unknown device leaves the whole registry as it was. *)
Theorem status_replaces now topic device_id w :
  startswith topic "smarthome/discovery/" = false →
  endswith topic "/state" = false →
  endswith topic "/status" = true →
  split "/" topic !! 2%nat = Some device_id →
  (∀ kvs d,
     devices w !! KStr device_id = Some d →
     devices (after (_on_message now (Message topic (Encodes (JDict kvs)))) w) =
       <[KStr device_id :=
           Device (d_id d) (d_type d) (d_name d) (d_capabilities d) (d_manufacturer d)
             (d_model d) (d_firmware_version d) (d_discovered_at d)
             (get_or (JBool false) "online" kvs)
             (d_state d) (d_last_update d)
             (Some (get_or JNull "battery" kvs))
             (Some (get_or JNull "signal_strength" kvs))]> (devices w)) ∧
  (∀ payload,
     devices w !! KStr device_id = None →
     devices (after (_on_message now (Message topic (Encodes payload))) w) = devices w).
Proof.
  intros Hdisc Hstate Hstatus Hseg. split.
  - intros kvs d Hk.
    destruct (on_message_after_route now topic (JDict kvs) w) as (Hd & _).
    rewrite Hd. unfold after.
    rewrite (route_status _ _ _ _ Hdisc Hstate Hstatus), Hseg.
    rewrite handle_device_status_run. simpl. by rewrite Hk.
  - intros payload Hk.
    destruct (on_message_after_route now topic payload w) as (Hd & _).
    rewrite Hd. unfold after.
    rewrite (route_status _ _ _ _ Hdisc Hstate Hstatus), Hseg.
    rewrite handle_device_status_run. simpl. by rewrite Hk.
Qed.

Lemma status_replaces_witness :
  devices (after (_on_message "2024-05-01T08:10:00" lamp_status) home)
    = <[KStr "d1" :=
          Device (JStr "d1") (JStr "light") (JStr "Lamp") (JList []) JNull JNull JNull
            "2024-05-01T08:00:00" (JBool false) ∅ None (Some (JInt 42)) (Some JNull)]>
        (devices home) ∧
  devices (after (_on_message "2024-05-01T08:10:00"
                    (Message "smarthome/devices/d2/status"
                       (Encodes (JDict [("online", JBool true)])))) home)
    = devices home.
Proof.
  split.
  - destruct (status_replaces "2024-05-01T08:10:00" "smarthome/devices/d1/status"
                "d1" home eq_refl eq_refl eq_refl eq_refl) as [H _].
    exact (H [("online", JBool false); ("battery", JInt 42)] lamp eq_refl).
  - destruct (status_replaces "2024-05-01T08:10:00" "smarthome/devices/d2/status"
                "d2" home eq_refl eq_refl eq_refl eq_refl) as [_ H].
    exact (H (JDict [("online", JBool true)]) eq_refl).
Defined.

(** ** Routing by topic *)

(** C5, as the code has it.  The [if]/[elif] chain applies to a readable
    message the one handler its topic selects, by first match: the
    discovery handler when the topic begins with the discovery prefix,
    whatever its suffix; otherwise, when the topic ends with the state
    suffix, the state handler on the third slash-delimited segment, for a
    topic that has one; otherwise, when it ends with the status suffix,
    the status handler on that segment, for a topic that has one; and no
    handler otherwise. *)
Theorem route_precedence now topic payload :
  (begins_with topic "smarthome/discovery/" →
   ∀ w, route now topic payload w = _handle_device_discovery now topic payload w) ∧
  (¬ begins_with topic "smarthome/discovery/" →
   ends_with topic "/state" →
   ∀ device_id, third_segment topic device_id →
   ∀ w, route now topic payload w = _handle_device_state_update now device_id payload w) ∧
  (¬ begins_with topic "smarthome/discovery/" →
   ¬ ends_with topic "/state" →
   ends_with topic "/status" →
   ∀ device_id, third_segment topic device_id →
   ∀ w, route now topic payload w = _handle_device_status device_id payload w) ∧
  (¬ begins_with topic "smarthome/discovery/" →
   ¬ ends_with topic "/state" →
   ¬ ends_with topic "/status" →
   ∀ w, route now topic payload w = (Ok tt, w)).
Proof.
  rewrite <- !startswith_begins, <- !endswith_ends.
  split; [|split; [|split]].
  - intros H w. by rewrite (route_discovery _ _ _ H).
  - intros H1%not_true_is_false H2 device_id Hseg%index_third_segment w.
    by rewrite (route_state _ _ _ _ H1 H2), Hseg.
  - intros H1%not_true_is_false H2%not_true_is_false H3 device_id
      Hseg%index_third_segment w.
    by rewrite (route_status _ _ _ _ H1 H2 H3), Hseg.
  - intros H1%not_true_is_false H2%not_true_is_false H3%not_true_is_false w.
    by rewrite (route_other _ _ _ H1 H2 H3).
Qed.

(** On a topic that is both a discovery topic and a state topic of the
    known device [d1], only the discovery handler runs: [d7] is created
    and [d1] is as it was. *)
Lemma route_precedence_witness :
  route "2024-05-01T09:00:00" "smarthome/discovery/d1/state"
    (JDict [("device_id", JStr "d7"); ("on", JBool true)]) home
  = _handle_device_discovery "2024-05-01T09:00:00" "smarthome/discovery/d1/state"
      (JDict [("device_id", JStr "d7"); ("on", JBool true)]) home ∧
  devices (after (_on_message "2024-05-01T09:00:00" discovery_state) home) !! KStr "d1"
  = Some lamp.
Proof.
  split; [|reflexivity].
  destruct (route_precedence "2024-05-01T09:00:00" "smarthome/discovery/d1/state"
              (JDict [("device_id", JStr "d7"); ("on", JBool true)])) as [H _].
  apply H. by exists "d1/state".
Defined.

(** C5 does not hold for every topic: [lab/state] ends with the state
    suffix and has no third segment.  Indexing raises [IndexError], no
    handler runs, and the records of [lab] and of [state] are as they
    were. *)
Lemma short_state_topic_runs_no_handler :
  startswith "lab/state" "smarthome/discovery/" = false ∧
  endswith "lab/state" "/state" = true ∧
  split "/" "lab/state" = ["lab"; "state"] ∧
  route "2024-05-01T09:00:00" "lab/state" (JDict [("on", JBool true)]) lab_home
    = (Raise IndexError, lab_home) ∧
  is_Some (devices lab_home !! KStr "lab") ∧
  is_Some (devices lab_home !! KStr "state") ∧
  devices (after (_on_message "2024-05-01T09:00:00" short_state) lab_home)
    = devices lab_home.
Proof.
  split; [reflexivity |]. split; [reflexivity |]. split; [reflexivity |].
  split; [reflexivity |]. split; [by eexists |]. split; [by eexists | reflexivity].
Qed.

(** ** Callbacks *)

Lemma until_raise_all topic v cbs :
  first_raise topic v cbs = None → until_raise topic v cbs = cbs.
Proof.
  induction cbs as [|cb cbs IH]; simpl; [done |].
  destruct (cb_body cb topic v); [done |]. intros H. by rewrite IH.
Qed.

Lemma first_raise_app topic v pre cb post e :
  Forall (λ c, cb_body c topic v = None) pre →
  cb_body cb topic v = Some e →
  first_raise topic v (pre ++ cb :: post) = Some e ∧
  until_raise topic v (pre ++ cb :: post) = pre ++ [cb].
Proof.
  intros Hpre Hcb. induction Hpre as [|c pre Hc Hpre [IH1 IH2]]; simpl.
  - by rewrite Hcb.
  - by rewrite Hc, IH1, IH2.
Qed.

(** A message whose handler returned: the callbacks of the topic are
    called in order until one raises. *)
Lemma on_message_dispatch now topic v w cbs :
  raised (route now topic v) (log_also (LogReceived topic v) w) = None →
  callbacks w !! topic = Some cbs →
  _on_message now (Message topic (Encodes v)) w =
    let w1 := after (route now topic v) (log_also (LogReceived topic v) w) in
    let w2 := call_also topic v (until_raise topic v cbs) w1 in
    match first_raise topic v cbs with
    | None => (Ok tt, w2)
    | Some e => if is_Exception e then (Ok tt, log_also (LogError e) w2) else (Raise e, w2)
    end.
Proof.
  intros Hr Hcbs. rewrite on_message_encodes.
  pose proof (route_same_callbacks now topic v (log_also (LogReceived topic v) w)) as Hc.
  unfold raised in Hr. unfold after. unfold same in Hc.
  destruct (route now topic v (log_also (LogReceived topic v) w)) as [[[]|e] w1];
    [|done].
  simpl in *. by rewrite Hc, Hcbs.
Qed.

(** What [subscribe_to_topic] does.  On a topic that has no list yet, the
    empty list is stored before the client is asked to subscribe: when
    the client raises, the empty list stays and the callback is not in
    it. *)
Lemma subscribe_to_topic_run topic cb w :
  subscribe_to_topic topic cb w =
    let append := set_callbacks (alter (λ cbs : list callback, cbs ++ [cb]) topic) in
    match callbacks w !! topic with
    | Some _ => (Ok tt, log_also (LogSubscribed topic) (append w))
    | None =>
        let w1 := send_also (Subscribe topic) (set_callbacks <[topic := []]> w) in
        if client_raises w (Subscribe topic) then (Raise ValueError, w1)
        else (Ok tt, log_also (LogSubscribed topic) (append w1))
    end.
Proof.
  unfold subscribe_to_topic. py_run.
  destruct (callbacks w !! topic) as [cbs|]; [done |].
  change (client_raises (set_callbacks _ w)) with (client_raises w).
  by destruct (client_raises w (Subscribe topic)).
Qed.

Lemma subscribe_to_topic_callbacks topic cb w cbs :
  callbacks w !! topic = Some cbs →
  callbacks (after (subscribe_to_topic topic cb) w) !! topic = Some (cbs ++ [cb]).
Proof.
  intros H. unfold after. rewrite subscribe_to_topic_run, H. simpl.
  by rewrite lookup_alter_eq, H.
Qed.

Lemma subscribe_to_topic_callbacks_fresh topic cb w :
  callbacks w !! topic = None →
  callbacks (after (subscribe_to_topic topic cb) w) !! topic
    = Some (if client_raises w (Subscribe topic) then [] else [cb]).
Proof.
  intros H. unfold after. rewrite subscribe_to_topic_run, H. cbv zeta.
  destruct (client_raises w (Subscribe topic)); simpl.
  - by rewrite lookup_insert_eq.
  - by rewrite lookup_alter_eq, lookup_insert_eq.
Qed.

(** C6, as the code has it.  When the payload of a message is readable
    and its handler, whichever it is, raises nothing, the callbacks
    registered for the exact topic are called with the topic and the
    payload in the order of registration, up to and including the first
    one that raises; when none raises, all of them are called.
    [subscribe_to_topic] appends to that list, whether or not the callback
    is in it already. *)
Theorem callbacks_dispatched now topic v w cbs :
  raised (route now topic v) (log_also (LogReceived topic v) w) = None →
  callbacks w !! topic = Some cbs →
  calls (after (_on_message now (Message topic (Encodes v))) w)
    = calls w ++ map (invocation_of topic v) (until_raise topic v cbs) ∧
  (first_raise topic v cbs = None → until_raise topic v cbs = cbs) ∧
  ∀ cb, callbacks (after (subscribe_to_topic topic cb) w) !! topic = Some (cbs ++ [cb]).
Proof.
  intros Hr Hcbs. split; [|split].
  - unfold after at 1. rewrite (on_message_dispatch _ _ _ _ _ Hr Hcbs). cbv zeta.
    pose proof (route_same_calls now topic v (log_also (LogReceived topic v) w)) as Hc.
    unfold same in Hc. fold (after (route now topic v) (log_also (LogReceived topic v) w)) in Hc.
    destruct (first_raise topic v cbs) as [e|]; [destruct (is_Exception e)|];
      simpl; by rewrite Hc.
  - apply until_raise_all.
  - intros cb. by apply subscribe_to_topic_callbacks.
Qed.

Lemma callbacks_dispatched_witness :
  calls (after (_on_message "2024-05-01T09:00:00" news) twice_listening)
    = [Invocation 1 "news" (JDict []); Invocation 1 "news" (JDict [])].
Proof.
  destruct (callbacks_dispatched "2024-05-01T09:00:00" "news" (JDict []) twice_listening
              [quiet; quiet] eq_refl eq_refl) as [H _].
  exact H.
Defined.

(** C6 does not hold for every readable message.  On [lab/state] the
    handler raises before the loop, and the registered callback is not
    called; on [news] the first callback raises, and the second is not
    called. *)
Lemma registered_callbacks_not_called :
  (callbacks lab_listener !! "lab/state" = Some [quiet] ∧
   calls (after (_on_message "2024-05-01T09:00:00" short_state) lab_listener) = []) ∧
  (callbacks news_listeners !! "news" = Some [faulty; quiet] ∧
   calls (after (_on_message "2024-05-01T09:00:00" news) news_listeners)
     = [Invocation 2 "news" (JDict [])]).
Proof. repeat split; reflexivity. Qed.

(** C7, as the code has it.  An error a callback raises during dispatch
    is caught by the [except Exception] clause of [_on_message] when it
    is an [Exception]: it is logged, the callbacks registered after the
    failing one are not called, and [_on_message] returns.  It leaves
    [_on_message] only when it is not an [Exception], such as
    [KeyboardInterrupt]. *)
Theorem callback_error_caught now topic v w pre cb post e :
  raised (route now topic v) (log_also (LogReceived topic v) w) = None →
  callbacks w !! topic = Some (pre ++ cb :: post) →
  Forall (λ c, cb_body c topic v = None) pre →
  cb_body cb topic v = Some e →
  let w1 := after (route now topic v) (log_also (LogReceived topic v) w) in
  let w2 := call_also topic v (pre ++ [cb]) w1 in
  _on_message now (Message topic (Encodes v)) w =
    if is_Exception e then (Ok tt, log_also (LogError e) w2) else (Raise e, w2).
Proof.
  intros Hr Hcbs Hpre Hcb.
  rewrite (on_message_dispatch _ _ _ _ _ Hr Hcbs). cbv zeta.
  destruct (first_raise_app topic v pre cb post e Hpre Hcb) as [-> ->]. done.
Qed.

Lemma callback_error_caught_witness :
  _on_message "2024-05-01T09:00:00" news news_listeners =
    (Ok tt,
     log_also (LogError ValueError)
       (call_also "news" (JDict []) [faulty]
          (log_also (LogReceived "news" (JDict [])) news_listeners))).
Proof.
  exact (callback_error_caught "2024-05-01T09:00:00" "news" (JDict []) news_listeners
           [] faulty [quiet] ValueError eq_refl eq_refl (Forall_nil_2 _) eq_refl).
Defined.

(** C7 does not hold: the [ValueError] that [faulty] raises does not
    leave [_on_message], which returns after logging it. *)
Lemma callback_error_does_not_propagate :
  callbacks news_listeners !! "news" = Some [faulty; quiet] ∧
  cb_body faulty "news" (JDict []) = Some ValueError ∧
  raised (_on_message "2024-05-01T09:00:00" news) news_listeners = None ∧
  last (logged (after (_on_message "2024-05-01T09:00:00" news) news_listeners))
    = Some (LogError ValueError).
Proof. repeat split; reflexivity. Qed.

(** ** Nothing reads the log *)

Lemma blind_ret {A : Type} (a : A) : log_blind (mret a).
Proof. intros l w. reflexivity. Qed.

Lemma blind_raise {A : Type} e : log_blind (raise (A := A) e).
Proof. intros l w. reflexivity. Qed.

Lemma blind_gets {A : Type} (f : world → A) :
  (∀ l w, f (relog l w) = f w) → log_blind (gets f).
Proof. intros H l w. unfold gets. simpl. by rewrite H. Qed.

Lemma blind_modify f : (∀ l w, f (relog l w) = relog l (f w)) → log_blind (modify f).
Proof. intros H l w. unfold modify. simpl. by rewrite H. Qed.

Lemma blind_bind {A B : Type} (m : py A) (f : A → py B) :
  log_blind m → (∀ a, log_blind (f a)) → log_blind (m ≫= f).
Proof.
  intros Hm Hf l w. rewrite !bind_unfold, Hm.
  destruct (m w) as [[a|e] w']; simpl; [apply Hf | done].
Qed.

Lemma blind_try_except {A : Type} (body : py A) handler :
  log_blind body → (∀ e, log_blind (handler e)) → log_blind (try_except body handler).
Proof.
  intros Hb Hh l w. unfold try_except. rewrite Hb.
  destruct (body w) as [[a|e] w']; simpl; [done |].
  destruct (is_Exception e); [apply Hh | done].
Qed.

Lemma blind_for_each {A : Type} (l : list A) body :
  (∀ x, log_blind (body x)) → log_blind (for_each l body).
Proof.
  intros Hb. induction l as [|x l IH]; simpl.
  - apply blind_ret.
  - apply blind_bind; [apply Hb | intros _; apply IH].
Qed.

Lemma blind_index {A : Type} (l : list A) i : log_blind (index l i).
Proof. unfold index. destruct (l !! i); [apply blind_ret | apply blind_raise]. Qed.

Lemma blind_hash v : log_blind (hash v).
Proof. unfold hash. destruct (hashable v); [apply blind_ret | apply blind_raise]. Qed.

Lemma blind_payload_get payload key default : log_blind (payload_get payload key default).
Proof. destruct payload; first [apply blind_ret | apply blind_raise]. Qed.

Lemma blind_loads b : log_blind (loads b).
Proof. destruct b; [apply blind_raise | apply blind_ret]. Qed.

Lemma blind_logger r : log_blind (logger r).
Proof.
  apply blind_modify. intros l w. unfold relog. simpl. by rewrite app_assoc.
Qed.

Lemma blind_client_request r : log_blind (client_request r).
Proof. intros l w. unfold client_request. simpl. by destruct (client_raises w r). Qed.

Lemma blind_json_dumps v : log_blind (json_dumps v).
Proof. intros l w. unfold json_dumps. simpl. by destruct (dumps_raises w v). Qed.

Lemma blind_call cb topic payload : log_blind (call cb topic payload).
Proof. intros l w. unfold call. simpl. by destruct (cb_body cb topic payload). Qed.

Lemma blind_state_update k payload : log_blind (state_update k payload).
Proof.
  intros l w. unfold state_update. simpl.
  destruct (devices w !! k) as [d|]; [|done].
  by destruct (dict_update payload (d_state d)).
Qed.

(** One step of a proof that a computation does not read the log. *)
Ltac blind_step :=
  lazymatch goal with
  | |- log_blind (mbind _ _) => apply blind_bind; [|intros ?]
  | |- log_blind (mret _) => apply blind_ret
  | |- log_blind (raise _) => apply blind_raise
  | |- log_blind (gets _) => apply blind_gets; reflexivity
  | |- log_blind (index _ _) => apply blind_index
  | |- log_blind (hash _) => apply blind_hash
  | |- log_blind (loads _) => apply blind_loads
  | |- log_blind (payload_get _ _ _) => apply blind_payload_get
  | |- log_blind (logger _) => apply blind_logger
  | |- log_blind (call _ _ _) => apply blind_call
  | |- log_blind (state_update _ _) => apply blind_state_update
  | |- log_blind (for_each _ _) => apply blind_for_each; intros ?
  | |- log_blind (try_except _ _) => apply blind_try_except; [|intros ?]
  | |- log_blind (modify _) => apply blind_modify; reflexivity
  | |- log_blind (client_subscribe _) => apply blind_client_request
  | |- log_blind (client_publish _ _) => apply blind_client_request
  | |- log_blind (json_dumps _) => apply blind_json_dumps
  | |- log_blind (assign _ _) => apply blind_modify; reflexivity
  | |- log_blind (if ?b then _ else _) => destruct b
  | |- log_blind (match ?x with _ => _ end) => destruct x
  end.

Ltac blind := cbv zeta; repeat blind_step.

Lemma on_message_blind now msg : log_blind (_on_message now msg).
Proof.
  unfold _on_message, route, trigger_callbacks, _handle_device_discovery,
    _handle_device_state_update, _handle_device_status.
  blind.
Qed.

Lemma control_device_blind now device_id command params :
  log_blind (control_device now device_id command params).
Proof. unfold control_device. blind. Qed.

Lemma exec_blind o l w : exec o (relog l w) = relog l (exec o w).
Proof.
  assert (∀ A (m : py A), log_blind m → after m (relog l w) = relog l (after m w)) as H.
  { intros A m Hm. unfold after. by rewrite Hm. }
  destruct o; simpl; apply H.
  - unfold _on_connect. blind.
  - unfold _on_disconnect. blind.
  - apply on_message_blind.
  - unfold get_devices. blind.
  - unfold get_device. blind.
  - apply control_device_blind.
  - apply control_device_blind.
  - apply control_device_blind.
  - apply control_device_blind.
  - apply control_device_blind.
  - apply control_device_blind.
  - apply control_device_blind.
  - apply control_device_blind.
  - unfold create_scene. blind.
  - unfold activate_scene. blind.
  - unfold create_automation. blind.
  - unfold subscribe_to_topic. blind.
  - unfold get_energy_usage. blind.
Qed.

Lemma exec_all_blind os l w : exec_all os (relog l w) = relog l (exec_all os w).
Proof.
  revert w. induction os as [|o os IH]; intros w; simpl; [done |].
  by rewrite exec_blind, IH.
Qed.

(** Worlds that differ in the log only stay so, and log the same. *)
Lemma exec_all_same_but_log os w l1 l2 :
  let c := World (client_raises w) (dumps_raises w) (devices w) (callbacks w) (sent w)
             (calls w) [] in
  same_but_log (exec_all os (relog l1 c)) (exec_all os (relog l2 c)) ∧
  logged (exec_all os (relog l1 c)) = l1 ++ logged (exec_all os c) ∧
  logged (exec_all os (relog l2 c)) = l2 ++ logged (exec_all os c).
Proof.
  intros c. rewrite !exec_all_blind. unfold same_but_log, relog. simpl. done.
Qed.

(** ** Unreadable messages *)

Lemma relog_logged w :
  relog (logged w)
    (World (client_raises w) (dumps_raises w) (devices w) (callbacks w) (sent w) (calls w) [])
  = w.
Proof. destruct w. unfold relog. simpl. by rewrite app_nil_r. Qed.

(** C8. A message whose body cannot be decoded is dropped:
    [_on_message] returns, the registry, the callback registry, the
    requests and the calls are as they were (no handler ran, no callback
    was called), and only the error is logged.  Whatever comes next is
    processed as if the message had not arrived: the two worlds differ by
    that one log record. *)
Theorem undecodable_dropped now topic w :
  let w1 := after (_on_message now (Message topic Undecodable)) w in
  raised (_on_message now (Message topic Undecodable)) w = None ∧
  devices w1 = devices w ∧ callbacks w1 = callbacks w ∧
  sent w1 = sent w ∧ calls w1 = calls w ∧
  logged w1 = logged w ++ [LogError DecodeError] ∧
  ∀ os,
    same_but_log (exec_all os w1) (exec_all os w) ∧
    ∃ l, logged (exec_all os w) = logged w ++ l ∧
         logged (exec_all os w1) = (logged w ++ [LogError DecodeError]) ++ l.
Proof.
  intros w1. repeat (split; [reflexivity |]).
  intros os.
  set (c := World (client_raises w) (dumps_raises w) (devices w) (callbacks w) (sent w)
              (calls w) []).
  assert (w1 = relog (logged w ++ [LogError DecodeError]) c) as ->.
  { subst w1. unfold after. rewrite on_message_undecodable.
    unfold log_also, relog. simpl. by rewrite app_nil_r. }
  replace (exec_all os w) with (exec_all os (relog (logged w) c))
    by (unfold c; by rewrite relog_logged).
  destruct (exec_all_same_but_log os w (logged w ++ [LogError DecodeError]) (logged w))
    as (Hsame & H1 & H2).
  fold c in Hsame, H1, H2. split; [exact Hsame |].
  exists (logged (exec_all os c)). by rewrite H1, H2.
Qed.

(** ** Further properties of the message path *)

(** What leaves a [try] whose handler returns is not an [Exception]. *)
Lemma try_except_raised {A : Type} (body : py A) handler w e :
  (∀ e' w', raised (handler e') w' = None) →
  raised (try_except body handler) w = Some e → is_Exception e = false.
Proof.
  intros Hh. unfold raised, try_except.
  destruct (body w) as [[a|e'] w']; simpl; [done |].
  destruct (is_Exception e') eqn:He.
  - specialize (Hh e' w'). unfold raised in Hh.
    destruct (handler e' w').1; [done | by intros [= <-]].
  - simpl. by intros [= <-].
Qed.

(** [_on_message] lets no [Exception] out. *)
Lemma on_message_catches now msg w e :
  raised (_on_message now msg) w = Some e → is_Exception e = false.
Proof. unfold _on_message. by apply try_except_raised. Qed.

(** A JSON object on a topic that has the segments its suffix asks for,
    with a [device_id] that is falsy, or can be a key and is either known
    or has a per-device filter the client takes, is handled without an
    error: the callbacks of the topic are reached. *)
Lemma route_returns now topic kvs w :
  (startswith topic "smarthome/discovery/" = true →
   truthy (get_or JNull "device_id" kvs) = true →
   ∃ a, hashable (get_or JNull "device_id" kvs) = Some a ∧
        (devices w !! key_of a = None →
         client_raises w (Subscribe ("smarthome/devices/" +:+ py_str a +:+ "/#")) = false)) →
  (startswith topic "smarthome/discovery/" = false →
   endswith topic "/state" || endswith topic "/status" = true →
   is_Some (split "/" topic !! 2%nat)) →
  raised (route now topic (JDict kvs)) w = None.
Proof.
  intros Hdisc Hseg. unfold raised.
  destruct (startswith topic "smarthome/discovery/") eqn:H1.
  - rewrite (route_discovery _ _ _ H1), handle_device_discovery_run. cbv zeta.
    destruct (truthy _) eqn:Ht; [|done].
    destruct (Hdisc eq_refl eq_refl) as (a & -> & Hclient).
    destruct (devices w !! key_of a); [done |]. simpl. by rewrite Hclient.
  - destruct (endswith topic "/state") eqn:H2.
    + destruct (Hseg eq_refl eq_refl) as [d Hd].
      rewrite (route_state _ _ _ _ H1 H2), Hd, handle_device_state_update_run.
      by destruct (devices w !! KStr d).
    + destruct (endswith topic "/status") eqn:H3.
      * destruct (Hseg eq_refl eq_refl) as [d Hd].
        rewrite (route_status _ _ _ _ H1 H2 H3), Hd, handle_device_status_run.
        by destruct (devices w !! KStr d).
      * by rewrite (route_other _ _ _ H1 H2 H3).
Qed.

(** [subscribe_to_topic] asks the client for the topic on the first
    registration only. *)
Lemma subscribe_to_topic_sent topic cb w :
  sent (after (subscribe_to_topic topic cb) w) =
    match callbacks w !! topic with
    | None => sent w ++ [Subscribe topic]
    | Some _ => sent w
    end.
Proof.
  unfold after. rewrite subscribe_to_topic_run. cbv zeta.
  destruct (callbacks w !! topic); [done |].
  by destruct (client_raises w (Subscribe topic)).
Qed.

(** [get_devices] with a type returns the records of that type, under
    their keys. *)
Lemma get_devices_typed t w k d :
  truthy (JStr t) = true →
  match (get_devices (Some t) w).1 with
  | Ok found => found !! k = Some d ↔ devices w !! k = Some d ∧ d_type d = JStr t
  | Raise _ => False
  end.
Proof.
  intros Ht. unfold get_devices. rewrite Ht. simpl.
  rewrite map_lookup_filter_Some. simpl. unfold has_type.
  split; intros [H1 H2]; (split; [done |]).
  - destruct (d_type d) as [| | |s| |]; try done.
    by apply String.eqb_eq in H2 as ->.
  - rewrite H2. apply String.eqb_refl.
Qed.

(** The scenario of the specification: discover the light [d1], update
    its state, report its status, switch it on. *)
Example scenario_light :
  let w :=
    exec_all
      [OnMessage "2024-05-01T08:00:00" lamp_discovery;
       OnMessage "2024-05-01T08:05:00" lamp_on;
       OnMessage "2024-05-01T08:10:00" lamp_status;
       TurnOn "2024-05-01T08:15:00" (JStr "d1")] initial in
  devices w !! KStr "d1" =
    Some (Device (JStr "d1") (JStr "light") (JStr "Lamp") (JList []) JNull JNull JNull
            "2024-05-01T08:00:00" (JBool false) {[KStr "on" := JBool true]}
            (Some "2024-05-01T08:05:00") (Some (JInt 42)) (Some JNull)) ∧
  sent w =
    [Subscribe "smarthome/devices/d1/#";
     Publish "smarthome/devices/d1/command"
       (JDict [("command", JStr "turn_on"); ("params", JDict []);
               ("timestamp", JStr "2024-05-01T08:15:00")])].
Proof. split; reflexivity. Qed.

(** The scenario of the specification: a state update for [d2], which
    was never discovered, leaves no entry for [d2]. *)
Example scenario_unknown_device :
  devices
    (exec_all
       [OnMessage "2024-05-01T08:05:00"
          (Message "smarthome/devices/d2/state" (Encodes (JDict [("on", JBool true)])))]
       initial) !! KStr "d2" = None.
Proof. reflexivity. Qed.

(** [dict.update] with a list of pairs stores the pairs before the first
    bad element and then raises; the record keeps them and [last_update]
    is not set. *)
Example partial_update :
  let w :=
    after (_on_message "2024-05-01T08:05:00"
             (Message "smarthome/devices/d1/state"
                (Encodes (JList [JList [JStr "on"; JBool true]; JInt 5])))) home in
  (d_state <$> devices w !! KStr "d1") = Some {[KStr "on" := JBool true]} ∧
  (d_last_update <$> devices w !! KStr "d1") = Some None ∧
  last (logged w) = Some (LogError TypeError).
Proof. repeat split; reflexivity. Qed.

(** * Further properties *)

(** ** How a record can change *)

Section evolution.
Context (P : relation device) `{!PreOrder P}.

(** What the handlers do to a record keeps it within [P]. *)
Hypothesis P_state :
  ∀ payload d, P d (with_state (λ _, (dict_update payload (d_state d)).2) d).
Hypothesis P_last_update : ∀ t d, P d (with_last_update t d).
Hypothesis P_online : ∀ v d, P d (with_online v d).
Hypothesis P_battery : ∀ v d, P d (with_battery v d).
Hypothesis P_signal_strength : ∀ v d, P d (with_signal_strength v d).

#[local] Instance evolves_preorder : PreOrder (evolves P).
Proof.
  split.
  - intros w k d H. exists d. split; [done | reflexivity].
  - intros w1 w2 w3 H12 H23 k d H.
    destruct (H12 _ _ H) as (d2 & H2 & P2).
    destruct (H23 _ _ H2) as (d3 & H3 & P3).
    exists d3. split; [done | by transitivity d2].
Qed.

Lemma evolves_same_devices w w' : devices w' = devices w → evolves P w w'.
Proof. intros E k d H. exists d. rewrite E. split; [done | reflexivity]. Qed.

Lemma evolves_insert_fresh w w' k d :
  devices w !! k = None → devices w' = <[k := d]> (devices w) → evolves P w w'.
Proof.
  intros Hk E j dj Hj. exists dj. split; [|reflexivity].
  rewrite E, lookup_insert_ne; [done | congruence].
Qed.

Lemma evolves_insert w w' k d d' :
  devices w !! k = Some d → P d d' →
  devices w' = <[k := d']> (devices w) → evolves P w w'.
Proof.
  intros Hk HP E j dj Hj. rewrite E.
  destruct (decide (k = j)) as [<-|Hne].
  - exists d'. rewrite lookup_insert_eq. split; [done |]. by simplify_eq.
  - exists dj. rewrite lookup_insert_ne by done. split; [done | reflexivity].
Qed.

Lemma handle_device_discovery_evolves now topic payload :
  respects (evolves P) (_handle_device_discovery now topic payload).
Proof.
  intros w. rewrite handle_device_discovery_run.
  destruct payload as [| | | | |kvs]; try reflexivity. simpl.
  destruct (truthy _); [|reflexivity].
  destruct (hashable _) as [a|]; [|reflexivity].
  destruct (devices w !! key_of a) eqn:Hk; [reflexivity |].
  eapply evolves_insert_fresh; [exact Hk | reflexivity].
Qed.

Lemma handle_device_state_update_evolves now device_id payload :
  respects (evolves P) (_handle_device_state_update now device_id payload).
Proof.
  intros w. rewrite handle_device_state_update_run.
  destruct (devices w !! KStr device_id) as [d|] eqn:Hk; [|reflexivity].
  pose proof (P_state payload d) as Hst.
  destruct (dict_update payload (d_state d)) as [[[]|e] st]; simpl in *.
  - eapply evolves_insert; [exact Hk | | reflexivity].
    etransitivity; [exact Hst | apply P_last_update].
  - eapply evolves_insert; [exact Hk | exact Hst | reflexivity].
Qed.

Lemma handle_device_status_evolves device_id payload :
  respects (evolves P) (_handle_device_status device_id payload).
Proof.
  intros w. rewrite handle_device_status_run.
  destruct (devices w !! KStr device_id) as [d|] eqn:Hk; [|reflexivity].
  destruct payload as [| | | | |kvs]; try reflexivity.
  eapply evolves_insert; [exact Hk | | reflexivity].
  etransitivity; [apply P_online |].
  etransitivity; [apply P_battery | apply P_signal_strength].
Qed.

Lemma route_evolves now topic payload : respects (evolves P) (route now topic payload).
Proof.
  unfold route.
  destruct (startswith _ _); [apply handle_device_discovery_evolves |].
  destruct (endswith topic "/state").
  { apply (respects_bind (evolves P) _); [apply (respects_index (evolves P) _) |].
    intros d. apply handle_device_state_update_evolves. }
  destruct (endswith topic "/status"); [|apply (respects_ret (evolves P) _)].
  apply (respects_bind (evolves P) _); [apply (respects_index (evolves P) _) |].
  intros d. apply handle_device_status_evolves.
Qed.

Lemma same_devices_evolves {A : Type} (m : py A) :
  respects (same devices) m → respects (evolves P) m.
Proof. intros H w. apply evolves_same_devices, H. Qed.

Lemma on_message_evolves now msg : respects (evolves P) (_on_message now msg).
Proof.
  unfold _on_message.
  apply (respects_try_except (evolves P) _).
  - cbv zeta.
    apply (respects_bind (evolves P) _); [apply (respects_loads (evolves P) _) |].
    intros payload. apply (respects_bind (evolves P) _).
    { apply same_devices_evolves. by apply respects_modify. }
    intros _. apply (respects_bind (evolves P) _); [apply route_evolves |].
    intros _. apply same_devices_evolves, trigger_callbacks_same_devices.
  - intros e. apply same_devices_evolves. by apply respects_modify.
Qed.

Lemma exec_evolves o w : evolves P w (exec o w).
Proof.
  destruct o; simpl; unfold after;
    try (apply evolves_same_devices;
         first [ apply on_connect_same_devices
               | apply on_disconnect_same_devices
               | apply control_device_same_devices
               | apply create_scene_same_devices
               | apply activate_scene_same_devices
               | apply create_automation_same_devices
               | apply subscribe_to_topic_same_devices
               | apply get_energy_usage_same_devices ]).
  - apply on_message_evolves.
  - rewrite get_devices_same_world. reflexivity.
  - rewrite get_device_same_world. reflexivity.
Qed.

Lemma exec_all_evolves os w : evolves P w (exec_all os w).
Proof.
  revert w. induction os as [|o os IH]; intros w; simpl.
  - reflexivity.
  - transitivity (exec o w); [apply exec_evolves | apply IH].
Qed.
End evolution.

(** ** What discovery wrote is never rewritten *)

#[global] Instance same_metadata_preorder : PreOrder same_metadata.
Proof.
  split.
  - intros d. by repeat split.
  - intros d1 d2 d3 H12 H23. unfold same_metadata in *.
    destruct H12 as (?&?&?&?&?&?&?&?), H23 as (?&?&?&?&?&?&?&?).
    repeat split; congruence.
Qed.

(** After any sequence of operations, a record that was in the registry
    is still there under the same key with the id, type, name,
    capabilities, manufacturer, model, firmware version and discovery
    time it had: only the first discovery of a device writes them. *)
Theorem metadata_is_immutable os w k d :
  devices w !! k = Some d →
  ∃ d', devices (exec_all os w) !! k = Some d' ∧ same_metadata d d'.
Proof.
  intros H.
  by apply (exec_all_evolves same_metadata); try done; intros; repeat split.
Qed.

Lemma metadata_is_immutable_witness :
  ∃ d', devices (exec_all [OnMessage "2024-05-01T08:05:00" lamp_on;
                           OnMessage "2024-05-01T08:10:00" lamp_status;
                           OnMessage "2024-05-02T09:30:00" lamp_discovery] home)
          !! KStr "d1" = Some d' ∧
        same_metadata lamp d'.
Proof.
  exact (metadata_is_immutable
           [OnMessage "2024-05-01T08:05:00" lamp_on;
            OnMessage "2024-05-01T08:10:00" lamp_status;
            OnMessage "2024-05-02T09:30:00" lamp_discovery] home (KStr "d1") lamp eq_refl).
Defined.

(** ** No entry of a record is ever removed *)

Lemma merge_dom kvs (st : gmap pykey json) : dom st ⊆ dom (merge kvs st).
Proof.
  unfold merge. revert st. induction kvs as [|kv kvs IH]; intros st; simpl; [done |].
  etransitivity; [|apply IH]. rewrite dom_insert. set_solver.
Qed.

Lemma merge_from_seq2_dom items (st : gmap pykey json) :
  dom st ⊆ dom (merge_from_seq2 items st).2.
Proof.
  revert st. induction items as [|item items IH]; intros st; simpl; [done |].
  destruct (as_pair item) as [[k v]|e]; [|done].
  destruct (hashable k) as [a|]; [|done].
  etransitivity; [|apply IH]. rewrite dom_insert. set_solver.
Qed.

Lemma dict_update_dom payload (st : gmap pykey json) :
  dom st ⊆ dom (dict_update payload st).2.
Proof.
  destruct payload as [| | |[|c s]|items|kvs]; simpl; try done.
  - apply merge_from_seq2_dom.
  - apply merge_dom.
Qed.

#[global] Instance keeps_entries_preorder : PreOrder keeps_entries.
Proof.
  split.
  - intros d. by repeat split.
  - intros d1 d2 d3 (S12 & L12 & B12 & G12) (S23 & L23 & B23 & G23).
    repeat split; [by etransitivity | auto..].
Qed.

(** After any sequence of operations, the state of a record has every key
    it had, and the keys [last_update], [battery] and [signal_strength]
    are present if they were: state is only ever merged into, and nothing
    expires. *)
Theorem entries_are_kept os w k d :
  devices w !! k = Some d →
  ∃ d', devices (exec_all os w) !! k = Some d' ∧ keeps_entries d d'.
Proof.
  intros H. apply (exec_all_evolves keeps_entries); try done.
  all: intros ? d0; split; [first [apply dict_update_dom | done] |].
  all: repeat split; first [done | by eexists].
Qed.

Lemma entries_are_kept_witness :
  ∃ d', devices (exec_all [OnMessage "2024-05-01T08:05:00" lamp_on;
                           OnMessage "2024-05-01T08:10:00" lamp_status] home)
          !! KStr "d1" = Some d' ∧
        keeps_entries lamp d'.
Proof.
  exact (entries_are_kept
           [OnMessage "2024-05-01T08:05:00" lamp_on;
            OnMessage "2024-05-01T08:10:00" lamp_status] home (KStr "d1") lamp eq_refl).
Defined.

(** ** Records sit under their own id *)

Lemma well_keyed_same_devices w w' :
  devices w' = devices w → well_keyed w → well_keyed w'.
Proof. intros E H k d. rewrite E. apply H. Qed.

Lemma well_keyed_insert w w' k d' :
  well_keyed w →
  devices w' = <[k := d']> (devices w) →
  truthy (d_id d') = true →
  (∃ a, hashable (d_id d') = Some a ∧ key_of a = k) →
  well_keyed w'.
Proof.
  intros Hw E Ht Ha j dj. rewrite E.
  destruct (decide (k = j)) as [<-|Hne].
  - rewrite lookup_insert_eq. by intros [= <-].
  - rewrite lookup_insert_ne by done. apply Hw.
Qed.

Lemma well_keyed_update w w' k d d' :
  well_keyed w → devices w !! k = Some d → d_id d' = d_id d →
  devices w' = <[k := d']> (devices w) → well_keyed w'.
Proof.
  intros Hw Hk Hid E. destruct (Hw _ _ Hk) as [Ht Ha].
  eapply well_keyed_insert; [exact Hw | exact E | |]; by rewrite Hid.
Qed.

Lemma route_well_keyed now topic payload w :
  well_keyed w → well_keyed (after (route now topic payload) w).
Proof.
  intros Hw. unfold after.
  destruct (startswith topic "smarthome/discovery/") eqn:H1.
  { rewrite (route_discovery _ _ _ H1), handle_device_discovery_run.
    destruct payload as [| | | | |kvs]; try done. cbv zeta.
    destruct (truthy (get_or JNull "device_id" kvs)) eqn:Ht; [|done].
    destruct (hashable (get_or JNull "device_id" kvs)) as [a|] eqn:Ha; [|done].
    destruct (devices w !! key_of a) eqn:Hk; [done |].
    eapply well_keyed_insert; [exact Hw | reflexivity | exact Ht | by exists a]. }
  destruct (endswith topic "/state") eqn:H2.
  { rewrite (route_state _ _ _ _ H1 H2).
    destruct (split "/" topic !! 2%nat) as [d|]; [|done].
    rewrite handle_device_state_update_run.
    destruct (devices w !! KStr d) as [r|] eqn:Hk; [|done].
    destruct (dict_update payload (d_state r)) as [[[]|e] st];
      (eapply well_keyed_update; [exact Hw | exact Hk | | reflexivity]; reflexivity). }
  destruct (endswith topic "/status") eqn:H3;
    [|by rewrite (route_other _ _ _ H1 H2 H3)].
  rewrite (route_status _ _ _ _ H1 H2 H3).
  destruct (split "/" topic !! 2%nat) as [d|]; [|done].
  rewrite handle_device_status_run.
  destruct (devices w !! KStr d) as [r|] eqn:Hk; [|done].
  destruct payload as [| | | | |kvs]; try done.
  eapply well_keyed_update; [exact Hw | exact Hk | | reflexivity]; reflexivity.
Qed.

Lemma on_message_well_keyed now msg w :
  well_keyed w → well_keyed (after (_on_message now msg) w).
Proof.
  intros Hw. destruct msg as [topic [|v]].
  - by apply (well_keyed_same_devices w).
  - destruct (on_message_after_route now topic v w) as (Hd & _).
    eapply well_keyed_same_devices; [exact Hd |].
    apply route_well_keyed. by apply (well_keyed_same_devices w).
Qed.

Lemma exec_well_keyed o w : well_keyed w → well_keyed (exec o w).
Proof.
  intros Hw.
  destruct o; simpl;
    try (apply (well_keyed_same_devices w); [|exact Hw]; unfold after;
         first [ apply on_connect_same_devices
               | apply on_disconnect_same_devices
               | apply control_device_same_devices
               | apply create_scene_same_devices
               | apply activate_scene_same_devices
               | apply create_automation_same_devices
               | apply subscribe_to_topic_same_devices
               | apply get_energy_usage_same_devices
               | by rewrite get_devices_same_world
               | by rewrite get_device_same_world ]).
  by apply on_message_well_keyed.
Qed.

Lemma exec_all_well_keyed os w : well_keyed w → well_keyed (exec_all os w).
Proof.
  revert w. induction os as [|o os IH]; intros w Hw; simpl; [done |].
  by apply IH, exec_well_keyed.
Qed.

(** In every state a manager can reach, whatever its client, each record
    is stored under the key its own [id] makes: the discovery handler
    stores the record of [device_id] under [device_id], and nothing
    moves a record or writes its id again.  That id is truthy: no record
    sits under an empty, zero, false or null id.  The ids are those of
    the embedding: a float, and so a NaN, is none of them. *)
Theorem reachable_well_keyed client dumps os :
  well_keyed (exec_all os (new_manager client dumps)).
Proof.
  apply exec_all_well_keyed. intros k d H.
  unfold new_manager in H. simpl in H.
  by rewrite lookup_empty in H.
Qed.

(** ** The callback registry *)

Lemma on_message_same_callbacks now msg w :
  callbacks (after (_on_message now msg) w) = callbacks w.
Proof.
  destruct msg as [topic [|v]]; [done |].
  destruct (on_message_after_route now topic v w) as (_ & Hc & _).
  rewrite Hc. exact (route_same_callbacks now topic v (log_also (LogReceived topic v) w)).
Qed.

Lemma exec_same_callbacks o w :
  (∀ topic cb, o ≠ SubscribeToTopic topic cb) → callbacks (exec o w) = callbacks w.
Proof.
  intros Hne.
  assert (∀ A (m : py A), respects (same callbacks) m → callbacks (after m w) = callbacks w)
    as H by (intros A m Hm; apply Hm).
  destruct o; cbn [exec].
  - apply H. unfold _on_connect. frame same_field.
  - apply H. unfold _on_disconnect. frame same_field.
  - apply on_message_same_callbacks.
  - unfold after. by rewrite get_devices_same_world.
  - unfold after. by rewrite get_device_same_world.
  - apply H. unfold control_device. frame same_field.
  - apply H. unfold turn_on, control_device. frame same_field.
  - apply H. unfold turn_off, control_device. frame same_field.
  - apply H. unfold set_brightness, control_device. frame same_field.
  - apply H. unfold set_color, control_device. frame same_field.
  - apply H. unfold set_temperature, control_device. frame same_field.
  - apply H. unfold lock, control_device. frame same_field.
  - apply H. unfold unlock, control_device. frame same_field.
  - apply H. unfold create_scene. frame same_field.
  - apply H. unfold activate_scene. frame same_field.
  - apply H. unfold create_automation. frame same_field.
  - by destruct (Hne topic cb).
  - apply H. unfold get_energy_usage. frame same_field.
Qed.

Lemma subscribe_to_topic_callbacks_other topic cb w t :
  t ≠ topic → callbacks (after (subscribe_to_topic topic cb) w) !! t = callbacks w !! t.
Proof.
  intros Hne. unfold after. rewrite subscribe_to_topic_run. cbv zeta.
  destruct (callbacks w !! topic) as [cbs|] eqn:H; simpl.
  - by rewrite lookup_alter_ne.
  - destruct (client_raises w (Subscribe topic)); simpl.
    + by rewrite lookup_insert_ne.
    + rewrite lookup_alter_ne by done. by rewrite lookup_insert_ne.
Qed.

#[global] Instance keeps_callbacks_preorder : PreOrder keeps_callbacks.
Proof.
  split.
  - intros w topic cbs H. exists []. by rewrite app_nil_r.
  - intros w1 w2 w3 H12 H23 topic cbs H.
    destruct (H12 _ _ H) as (m2 & H2). destruct (H23 _ _ H2) as (m3 & H3).
    exists (m2 ++ m3). by rewrite app_assoc.
Qed.

Lemma exec_keeps_callbacks o w : keeps_callbacks w (exec o w).
Proof.
  destruct o as [| | | | | | | | | | | | | | | |topic cb|];
    try (intros t cbs H; exists []; rewrite app_nil_r, exec_same_callbacks by done;
         exact H).
  intros t cbs H. simpl.
  destruct (decide (t = topic)) as [->|Hne].
  - exists [cb]. by apply subscribe_to_topic_callbacks.
  - exists []. by rewrite subscribe_to_topic_callbacks_other, app_nil_r.
Qed.

(** After any sequence of operations, the callbacks registered for a
    topic are still registered, in the same order and before any later
    one: nothing unregisters or reorders a callback. *)
Theorem callbacks_are_never_unregistered os w topic cbs :
  callbacks w !! topic = Some cbs →
  ∃ more, callbacks (exec_all os w) !! topic = Some (cbs ++ more).
Proof.
  revert w cbs. induction os as [|o os IH]; intros w cbs H; simpl.
  - exists []. by rewrite app_nil_r.
  - destruct (exec_keeps_callbacks o w _ _ H) as (m1 & H1).
    destruct (IH _ _ H1) as (m2 & H2).
    exists (m1 ++ m2). by rewrite app_assoc.
Qed.

Lemma callbacks_are_never_unregistered_witness :
  ∃ more,
    callbacks (exec_all [OnMessage "2024-05-01T09:00:00" news;
                         SubscribeToTopic "news" quiet;
                         OnConnect 0] news_listeners) !! "news"
      = Some ([faulty; quiet] ++ more).
Proof.
  exact (callbacks_are_never_unregistered
           [OnMessage "2024-05-01T09:00:00" news; SubscribeToTopic "news" quiet; OnConnect 0]
           news_listeners "news" [faulty; quiet] eq_refl).
Defined.

(** ** Requests are only ever added *)

#[global] Instance sent_grows_preorder : PreOrder sent_grows.
Proof.
  split.
  - intros w. exists []. by rewrite app_nil_r.
  - intros w1 w2 w3 [m2 H2] [m3 H3]. exists (m2 ++ m3).
    by rewrite H3, H2, app_assoc.
Qed.

(** A step that leaves the requests alone or adds one. *)
Ltac grows_side :=
  unfold sent_grows, set_devices, set_callbacks; simpl;
  first [ by exists []; rewrite app_nil_r | by eexists ].

Lemma route_sent_grows now topic payload : respects sent_grows (route now topic payload).
Proof.
  unfold route, _handle_device_discovery, _handle_device_state_update,
    _handle_device_status.
  frame grows_side.
  all: apply (respects_state_update sent_grows); intros f w; grows_side.
Qed.

Lemma on_message_sent_grows now msg w : sent_grows w (after (_on_message now msg) w).
Proof.
  destruct msg as [topic [|v]].
  - exists []. by rewrite app_nil_r.
  - destruct (on_message_after_route now topic v w) as (_ & _ & Hs).
    destruct (route_sent_grows now topic v (log_also (LogReceived topic v) w)) as [m Hm].
    exists m. rewrite Hs. exact Hm.
Qed.

Lemma exec_sent_grows o w : sent_grows w (exec o w).
Proof.
  assert (∀ A (m : py A), respects sent_grows m → sent_grows w (after m w))
    as H by (intros A m Hm; apply Hm).
  destruct o; cbn [exec].
  - apply H. unfold _on_connect. frame grows_side.
  - apply H. unfold _on_disconnect. frame grows_side.
  - apply on_message_sent_grows.
  - unfold after. rewrite get_devices_same_world. reflexivity.
  - unfold after. rewrite get_device_same_world. reflexivity.
  - apply H. unfold control_device. frame grows_side.
  - apply H. unfold turn_on, control_device. frame grows_side.
  - apply H. unfold turn_off, control_device. frame grows_side.
  - apply H. unfold set_brightness, control_device. frame grows_side.
  - apply H. unfold set_color, control_device. frame grows_side.
  - apply H. unfold set_temperature, control_device. frame grows_side.
  - apply H. unfold lock, control_device. frame grows_side.
  - apply H. unfold unlock, control_device. frame grows_side.
  - apply H. unfold create_scene. frame grows_side.
  - apply H. unfold activate_scene. frame grows_side.
  - apply H. unfold create_automation. frame grows_side.
  - apply H. unfold subscribe_to_topic. frame grows_side.
  - apply H. unfold get_energy_usage. frame grows_side.
Qed.

(** The libraries are what they were at the start. *)
Lemma call_same_client cb topic payload :
  respects (same client_raises) (call cb topic payload).
Proof. intros w. unfold call. by destruct (cb_body cb topic payload). Qed.

Lemma call_same_dumps cb topic payload :
  respects (same dumps_raises) (call cb topic payload).
Proof. intros w. unfold call. by destruct (cb_body cb topic payload). Qed.

Lemma exec_same_libraries o w :
  client_raises (exec o w) = client_raises w ∧ dumps_raises (exec o w) = dumps_raises w.
Proof.
  assert (∀ A (m : py A),
            respects (same client_raises) m → respects (same dumps_raises) m →
            client_raises (after m w) = client_raises w ∧
            dumps_raises (after m w) = dumps_raises w)
    as H by (intros A m H1 H2; split; [apply H1 | apply H2]).
  destruct o; cbn [exec]; apply H;
    try (intros w'; unfold same;
         by rewrite ?get_devices_same_world, ?get_device_same_world);
    unfold _on_connect, _on_disconnect, _on_message, route, trigger_callbacks,
      _handle_device_discovery, _handle_device_state_update, _handle_device_status,
      turn_on, turn_off, set_brightness, set_color, set_temperature, lock, unlock,
      control_device, create_scene, activate_scene, create_automation,
      subscribe_to_topic, get_energy_usage;
    frame same_field;
    first [ by apply (respects_state_update (same client_raises))
          | by apply (respects_state_update (same dumps_raises))
          | apply call_same_client
          | apply call_same_dumps ].
Qed.

Lemma exec_same_client o w : client_raises (exec o w) = client_raises w.
Proof. apply exec_same_libraries. Qed.

Lemma exec_all_same_client os w : client_raises (exec_all os w) = client_raises w.
Proof.
  revert w. induction os as [|o os IH]; intros w; simpl; [done |].
  by rewrite IH, exec_same_client.
Qed.

Lemma exec_all_same_dumps os w : dumps_raises (exec_all os w) = dumps_raises w.
Proof.
  revert w. induction os as [|o os IH]; intros w; simpl; [done |].
  rewrite IH. apply exec_same_libraries.
Qed.

Lemma exec_subscribed o w : subscribed w → subscribed (exec o w).
Proof.
  intros Hw.
  destruct (exec_sent_grows o w) as [more Hsent].
  pose proof (exec_same_client o w) as Hclient.
  destruct o as [| | | | | | | | | | | | | | | |topic cb|];
    try (intros t cbs H; rewrite exec_same_callbacks in H by done;
         destruct (Hw _ _ H) as [Hin Hne]; rewrite Hclient; split; [|done];
         rewrite Hsent; apply elem_of_app; by left).
  intros t cbs H. rewrite Hclient. simpl in *.
  destruct (decide (t = topic)) as [->|Hne].
  - rewrite subscribe_to_topic_sent.
    destruct (callbacks w !! topic) as [old|] eqn:Hold.
    + rewrite (subscribe_to_topic_callbacks _ _ _ _ Hold) in H. injection H as <-.
      destruct (Hw _ _ Hold) as [Hin _]. split; [done |]. by destruct old.
    + rewrite (subscribe_to_topic_callbacks_fresh _ _ _ Hold) in H. injection H as <-.
      split; [apply elem_of_app; right; by apply list_elem_of_singleton |].
      by destruct (client_raises w (Subscribe topic)).
  - rewrite subscribe_to_topic_callbacks_other in H by done.
    destruct (Hw _ _ H) as [Hin Hne']. split; [|done].
    rewrite Hsent. apply elem_of_app. by left.
Qed.

(** In every state a manager can reach, whatever its client, the client
    was asked to subscribe to every topic of the callback registry, and
    a topic has an empty list of callbacks only when the client raises on
    that request: the empty list is what the first registration leaves
    when the client refuses the topic. *)
Theorem reachable_subscribed client dumps os :
  subscribed (exec_all os (new_manager client dumps)).
Proof.
  assert (∀ w, subscribed w → subscribed (exec_all os w)) as H.
  { induction os as [|o os IH]; intros w Hw; simpl; [done |].
    by apply IH, exec_subscribed. }
  apply H. intros topic cbs Hc.
  unfold new_manager in Hc. simpl in Hc.
  by rewrite lookup_empty in Hc.
Qed.

(** ** Registering callbacks, then receiving a message *)

Lemma subscribe_to_topic_same_calls topic cb :
  respects (same calls) (subscribe_to_topic topic cb).
Proof. unfold subscribe_to_topic. frame same_field. Qed.

Lemma exec_all_subscribe topic cb cbs w :
  exec_all (SubscribeToTopic topic <$> (cb :: cbs)) w
    = exec_all (SubscribeToTopic topic <$> cbs) (after (subscribe_to_topic topic cb) w).
Proof. reflexivity. Qed.

(** Registering on a topic that has callbacks already. *)
Lemma register_more topic cbs w cur :
  callbacks w !! topic = Some cur →
  let w1 := exec_all (SubscribeToTopic topic <$> cbs) w in
  callbacks w1 !! topic = Some (cur ++ cbs) ∧ sent w1 = sent w ∧
  calls w1 = calls w ∧ devices w1 = devices w.
Proof.
  revert w cur. induction cbs as [|cb cbs IH]; intros w cur H.
  - simpl. by rewrite app_nil_r.
  - cbv zeta. rewrite exec_all_subscribe.
    pose proof (subscribe_to_topic_callbacks topic cb w cur H) as H1.
    destruct (IH _ _ H1) as (Hc & Hs & Hk & Hd).
    rewrite Hc, Hs, Hk, Hd, subscribe_to_topic_sent, H, <- app_assoc.
    repeat split; [apply subscribe_to_topic_same_calls
                  | apply subscribe_to_topic_same_devices].
Qed.

(** Registering a first callback, and more, on a fresh topic that the
    client takes. *)
Lemma register_fresh topic cbs w :
  callbacks w !! topic = None → client_raises w (Subscribe topic) = false → cbs ≠ [] →
  let w1 := exec_all (SubscribeToTopic topic <$> cbs) w in
  callbacks w1 !! topic = Some cbs ∧ sent w1 = sent w ++ [Subscribe topic] ∧
  calls w1 = calls w ∧ devices w1 = devices w.
Proof.
  intros H Hclient Hne. destruct cbs as [|cb cbs]; [done |].
  cbv zeta. rewrite exec_all_subscribe.
  pose proof (subscribe_to_topic_callbacks_fresh topic cb w H) as H1.
  rewrite Hclient in H1.
  destruct (register_more topic cbs _ _ H1) as (Hc & Hs & Hk & Hd).
  rewrite Hc, Hs, Hk, Hd, subscribe_to_topic_sent, H.
  repeat split; [apply subscribe_to_topic_same_calls
                | apply subscribe_to_topic_same_devices].
Qed.

(** Callbacks registered one after the other on a topic that had none,
    and that the client takes, cost one subscription request, whatever
    their number, and end up in the registry in the order of
    registration.  A message on that topic, when the topic is none the
    built-in handlers take, then reaches them in that order, whatever
    JSON value it carries, up to the first one that raises. *)
Theorem registered_then_called now topic v cbs w :
  callbacks w !! topic = None →
  client_raises w (Subscribe topic) = false →
  cbs ≠ [] →
  startswith topic "smarthome/discovery/" = false →
  endswith topic "/state" = false →
  endswith topic "/status" = false →
  let w1 := exec_all (SubscribeToTopic topic <$> cbs) w in
  sent w1 = sent w ++ [Subscribe topic] ∧
  callbacks w1 !! topic = Some cbs ∧
  calls (after (_on_message now (Message topic (Encodes v))) w1)
    = calls w ++ map (invocation_of topic v) (until_raise topic v cbs).
Proof.
  intros Hfresh Hclient Hne H1 H2 H3 w1.
  destruct (register_fresh topic cbs w Hfresh Hclient Hne) as (Hc & Hs & Hk & _).
  fold w1 in Hc, Hs, Hk. split; [done |]. split; [done |].
  assert (raised (route now topic v) (log_also (LogReceived topic v) w1) = None) as Hr
    by (by rewrite (route_other _ _ _ H1 H2 H3)).
  unfold after. rewrite (on_message_dispatch _ _ _ _ _ Hr Hc). cbv zeta.
  unfold after. rewrite (route_other _ _ _ H1 H2 H3).
  destruct (first_raise topic v cbs) as [e|]; [destruct (is_Exception e)|];
    simpl; by rewrite Hk.
Qed.

Lemma registered_then_called_witness :
  sent (exec_all (SubscribeToTopic "news" <$> [quiet; faulty; quiet]) home)
    = [Subscribe "news"] ∧
  calls (after (_on_message "2024-05-01T09:00:00" (Message "news" (Encodes (JInt 7))))
           (exec_all (SubscribeToTopic "news" <$> [quiet; faulty; quiet]) home))
    = [Invocation 1 "news" (JInt 7); Invocation 2 "news" (JInt 7)].
Proof.
  destruct (registered_then_called "2024-05-01T09:00:00" "news" (JInt 7)
              [quiet; faulty; quiet] home eq_refl eq_refl ltac:(discriminate)
              eq_refl eq_refl eq_refl) as (H1 & _ & H2).
  split; [exact H1 | exact H2].
Defined.

(** A first registration on a topic the client refuses raises, and
    leaves the topic in the registry with no callback: the callback is
    not registered.  Every later registration on that topic finds the
    topic there, asks the client nothing and returns: its callbacks are
    in the registry, for a topic the client never took. *)
Theorem refused_topic_stays_registered topic cb cbs w :
  callbacks w !! topic = None →
  client_raises w (Subscribe topic) = true →
  let w1 := after (subscribe_to_topic topic cb) w in
  let w2 := exec_all (SubscribeToTopic topic <$> cbs) w1 in
  raised (subscribe_to_topic topic cb) w = Some ValueError ∧
  callbacks w1 !! topic = Some [] ∧
  sent w1 = sent w ++ [Subscribe topic] ∧
  logged w1 = logged w ∧
  callbacks w2 !! topic = Some cbs ∧
  sent w2 = sent w1 ∧
  Forall (λ c, ∀ w', is_Some (callbacks w' !! topic) →
                     raised (subscribe_to_topic topic c) w' = None) cbs.
Proof.
  intros Hfresh Hclient w1 w2.
  pose proof (subscribe_to_topic_callbacks_fresh topic cb w Hfresh) as H1.
  rewrite Hclient in H1. fold w1 in H1.
  destruct (register_more topic cbs w1 [] H1) as (Hc & Hs & _).
  fold w2 in Hc, Hs.
  split; [|split; [exact H1 |split; [|split; [|split; [exact Hc |split; [exact Hs |]]]]]].
  - unfold raised. by rewrite subscribe_to_topic_run, Hfresh, Hclient.
  - subst w1. by rewrite subscribe_to_topic_sent, Hfresh.
  - subst w1. unfold after. by rewrite subscribe_to_topic_run, Hfresh, Hclient.
  - apply Forall_forall. intros c _ w' [cur Hcur].
    unfold raised. by rewrite subscribe_to_topic_run, Hcur.
Qed.

Lemma refused_topic_stays_registered_witness :
  raised (subscribe_to_topic "bad#topic" quiet) initial = Some ValueError ∧
  callbacks (after (subscribe_to_topic "bad#topic" quiet) initial) !! "bad#topic" = Some [] ∧
  callbacks (exec_all (SubscribeToTopic "bad#topic" <$> [quiet; faulty; quiet]) initial)
    !! "bad#topic" = Some [faulty; quiet] ∧
  sent (exec_all (SubscribeToTopic "bad#topic" <$> [quiet; faulty; quiet]) initial)
    = [Subscribe "bad#topic"].
Proof.
  destruct (refused_topic_stays_registered "bad#topic" quiet [faulty; quiet] initial
              eq_refl eq_refl) as (H1 & H2 & H3 & _ & H5 & H6 & _).
  split; [exact H1 |]. split; [exact H2 |]. split; [exact H5 |].
  exact (eq_trans H6 H3).
Defined.

(** ** What a message outside discovery can touch *)

Lemma state_handler_devices now device_id payload w :
  devices (after (_handle_device_state_update now device_id payload) w) = devices w ∨
  ∃ d d', devices w !! KStr device_id = Some d ∧
          devices (after (_handle_device_state_update now device_id payload) w)
            = <[KStr device_id := d']> (devices w).
Proof.
  unfold after. rewrite handle_device_state_update_run.
  destruct (devices w !! KStr device_id) as [d|] eqn:Hk; [|by left].
  right. exists d.
  destruct (dict_update payload (d_state d)) as [[[]|e] st]; by eexists.
Qed.

Lemma status_handler_devices device_id payload w :
  devices (after (_handle_device_status device_id payload) w) = devices w ∨
  ∃ d d', devices w !! KStr device_id = Some d ∧
          devices (after (_handle_device_status device_id payload) w)
            = <[KStr device_id := d']> (devices w).
Proof.
  unfold after. rewrite handle_device_status_run.
  destruct (devices w !! KStr device_id) as [d|] eqn:Hk; [|by left].
  destruct payload as [| | | | |kvs]; try by left.
  right. exists d. by eexists.
Qed.

Lemma state_handler_sent now device_id payload w :
  sent (after (_handle_device_state_update now device_id payload) w) = sent w.
Proof.
  unfold after. rewrite handle_device_state_update_run.
  destruct (devices w !! KStr device_id) as [d|]; [|done].
  by destruct (dict_update payload (d_state d)) as [[[]|e] st].
Qed.

Lemma status_handler_sent device_id payload w :
  sent (after (_handle_device_status device_id payload) w) = sent w.
Proof.
  unfold after. rewrite handle_device_status_run.
  destruct (devices w !! KStr device_id) as [d|]; [|done].
  by destruct payload.
Qed.

(** Outside the discovery prefix, the [if]/[elif] chain changes at most
    one record, which exists already, sits under a string without a
    slash, and it sends nothing. *)
Lemma route_outside_discovery now topic payload w :
  startswith topic "smarthome/discovery/" = false →
  sent (after (route now topic payload) w) = sent w ∧
  (devices (after (route now topic payload) w) = devices w ∨
   ∃ device_id d d',
     sep_free "/" device_id = true ∧
     devices w !! KStr device_id = Some d ∧
     devices (after (route now topic payload) w) = <[KStr device_id := d']> (devices w)).
Proof.
  intros H1. unfold after.
  assert (∀ device_id, split "/" topic !! 2%nat = Some device_id →
                       sep_free "/" device_id = true) as Hfree.
  { intros device_id Hd. destruct (join_split "/" topic) as [_ Hf].
    rewrite Forall_forall in Hf. apply Hf. by eapply list_elem_of_lookup_2. }
  destruct (endswith topic "/state") eqn:H2.
  { rewrite (route_state _ _ _ _ H1 H2).
    destruct (split "/" topic !! 2%nat) as [device_id|] eqn:Hd; [|by split; [|left]].
    split; [apply state_handler_sent |].
    destruct (state_handler_devices now device_id payload w) as [E|(d & d' & Hk & E)];
      [by left | right].
    exists device_id, d, d'. split; [by apply Hfree | done]. }
  destruct (endswith topic "/status") eqn:H3;
    [|rewrite (route_other _ _ _ H1 H2 H3); by split; [|left]].
  rewrite (route_status _ _ _ _ H1 H2 H3).
  destruct (split "/" topic !! 2%nat) as [device_id|] eqn:Hd; [|by split; [|left]].
  split; [apply status_handler_sent |].
  destruct (status_handler_devices device_id payload w) as [E|(d & d' & Hk & E)];
    [by left | right].
  exists device_id, d, d'. split; [by apply Hfree | done].
Qed.



(** A state or status message reaches a record only through the third
    segment of its topic: a record whose key is not a string, or is a
    string with a slash in it, is left as it is by every message outside
    the discovery prefix, whatever the payload. *)
Theorem slashed_ids_are_unreachable now topic v w k :
  startswith topic "smarthome/discovery/" = false →
  (∀ s, k = KStr s → sep_free "/" s = false) →
  devices (after (_on_message now (Message topic (Encodes v))) w) !! k = devices w !! k.
Proof.
  intros H1 Hk.
  destruct (on_message_after_route now topic v w) as (Hd & _).
  rewrite Hd.
  destruct (route_outside_discovery now topic v (log_also (LogReceived topic v) w) H1)
    as [_ [E|(device_id & d & d' & Hfree & _ & E)]]; rewrite E; [done |].
  apply lookup_insert_ne. intros Heq.
  specialize (Hk device_id (eq_sym Heq)). congruence.
Qed.

Lemma slashed_ids_are_unreachable_witness :
  is_Some (devices attic_home !! KStr "attic/fan") ∧
  devices (after (_on_message "2024-05-01T08:05:00"
                    (Message "smarthome/devices/attic/fan/state"
                       (Encodes (JDict [("on", JBool true)])))) attic_home)
    !! KStr "attic/fan"
  = devices attic_home !! KStr "attic/fan".
Proof.
  split; [by eexists |].
  apply (slashed_ids_are_unreachable "2024-05-01T08:05:00"
           "smarthome/devices/attic/fan/state" (JDict [("on", JBool true)]) attic_home
           (KStr "attic/fan") eq_refl).
  intros s [= <-]. reflexivity.
Defined.

(** ** A message delivered twice *)

Lemma merge_cons k v kvs (st : gmap pykey json) :
  merge ((k, v) :: kvs) st = merge kvs (<[KStr k := v]> st).
Proof. reflexivity. Qed.

(** [d.update(kvs)] depends on [d] only outside the keys of [kvs]. *)
Lemma merge_agree kvs (st1 st2 : gmap pykey json) :
  (∀ k, (∀ key, key ∈ kvs.*1 → k ≠ KStr key) → st1 !! k = st2 !! k) →
  merge kvs st1 = merge kvs st2.
Proof.
  revert st1 st2. induction kvs as [|[k0 v0] kvs IH]; intros st1 st2 H.
  - apply map_eq. intros k. apply H. intros key Hkey. by apply elem_of_nil in Hkey.
  - rewrite !merge_cons. apply IH. intros k Hk.
    destruct (decide (k = KStr k0)) as [->|Hne].
    + by rewrite !lookup_insert_eq.
    + rewrite !lookup_insert_ne by done. apply H.
      intros key [->|Hkey]%elem_of_cons; [done | by apply Hk].
Qed.

(** Updating twice with the same dict is updating once. *)
Lemma merge_idempotent kvs (st : gmap pykey json) :
  merge kvs (merge kvs st) = merge kvs st.
Proof. apply merge_agree. intros k Hk. by apply merge_lookup_other. Qed.

Lemma state_message_devices now topic kvs w :
  startswith topic "smarthome/discovery/" = false →
  endswith topic "/state" = true →
  devices (after (_on_message now (Message topic (Encodes (JDict kvs)))) w) =
    match split "/" topic !! 2%nat with
    | Some device_id =>
        match devices w !! KStr device_id with
        | Some d =>
            <[KStr device_id := with_last_update now (with_state (merge kvs) d)]> (devices w)
        | None => devices w
        end
    | None => devices w
    end.
Proof.
  intros H1 H2.
  destruct (on_message_after_route now topic (JDict kvs) w) as (Hd & _).
  rewrite Hd. unfold after. rewrite (route_state _ _ _ _ H1 H2).
  destruct (split "/" topic !! 2%nat) as [device_id|]; [|done].
  rewrite handle_device_state_update_run. simpl.
  by destruct (devices w !! KStr device_id).
Qed.

Lemma status_message_devices now topic kvs w :
  startswith topic "smarthome/discovery/" = false →
  endswith topic "/state" = false →
  endswith topic "/status" = true →
  devices (after (_on_message now (Message topic (Encodes (JDict kvs)))) w) =
    match split "/" topic !! 2%nat with
    | Some device_id =>
        match devices w !! KStr device_id with
        | Some d =>
            <[KStr device_id :=
                with_signal_strength (get_or JNull "signal_strength" kvs)
                  (with_battery (get_or JNull "battery" kvs)
                     (with_online (get_or (JBool false) "online" kvs) d))]> (devices w)
        | None => devices w
        end
    | None => devices w
    end.
Proof.
  intros H1 H2 H3.
  destruct (on_message_after_route now topic (JDict kvs) w) as (Hd & _).
  rewrite Hd. unfold after. rewrite (route_status _ _ _ _ H1 H2 H3).
  destruct (split "/" topic !! 2%nat) as [device_id|]; [|done].
  rewrite handle_device_status_run. simpl.
  by destruct (devices w !! KStr device_id).
Qed.

(** A state, status or other message outside the discovery prefix that
    carries a JSON object can be delivered twice: the registry is then
    what one delivery, at the time of the second, makes it.  The second
    delivery of a state message moves [last_update] and nothing else. *)
Theorem redelivery_is_harmless now1 now2 topic kvs w :
  startswith topic "smarthome/discovery/" = false →
  let msg := Message topic (Encodes (JDict kvs)) in
  devices (after (_on_message now2 msg) (after (_on_message now1 msg) w))
    = devices (after (_on_message now2 msg) w).
Proof.
  intros H1 msg. subst msg.
  destruct (endswith topic "/state") eqn:H2.
  { rewrite (state_message_devices now2 _ _ _ H1 H2).
    rewrite !(state_message_devices _ _ _ w H1 H2).
    destruct (split "/" topic !! 2%nat) as [device_id|]; [|done].
    destruct (devices w !! KStr device_id) as [d|] eqn:Hk; [|by rewrite Hk].
    rewrite lookup_insert_eq, insert_insert_eq.
    f_equal. unfold with_last_update, with_state. simpl.
    by rewrite merge_idempotent. }
  destruct (endswith topic "/status") eqn:H3.
  { rewrite (status_message_devices now2 _ _ _ H1 H2 H3).
    rewrite !(status_message_devices _ _ _ w H1 H2 H3).
    destruct (split "/" topic !! 2%nat) as [device_id|]; [|done].
    destruct (devices w !! KStr device_id) as [d|] eqn:Hk; [|by rewrite Hk].
    by rewrite lookup_insert_eq, insert_insert_eq. }
  destruct (on_message_after_route now2 topic (JDict kvs)
              (after (_on_message now1 (Message topic (Encodes (JDict kvs)))) w))
    as (Hd2 & _).
  destruct (on_message_after_route now1 topic (JDict kvs) w) as (Hd1 & _).
  destruct (on_message_after_route now2 topic (JDict kvs) w) as (Hd & _).
  rewrite Hd2, Hd. unfold after at 1 3. rewrite !(route_other _ _ _ H1 H2 H3).
  simpl. rewrite Hd1. unfold after. by rewrite (route_other _ _ _ H1 H2 H3).
Qed.

Lemma redelivery_is_harmless_witness :
  devices (after (_on_message "2024-05-01T08:06:00" lamp_on)
             (after (_on_message "2024-05-01T08:05:00" lamp_on) home))
    = devices (after (_on_message "2024-05-01T08:06:00" lamp_on) home).
Proof.
  exact (redelivery_is_harmless "2024-05-01T08:05:00" "2024-05-01T08:06:00"
           "smarthome/devices/d1/state" [("on", JBool true)] home eq_refl).
Defined.

(** ** The manager's own publishes, delivered back *)



(** ** Queries *)

(** [get_devices] never raises and never changes anything.  For a
    non-empty type it returns exactly the records whose [type] is that
    string, under their keys; for [None] and for the empty string it
    returns the whole registry. *)
Theorem get_devices_spec device_type w :
  ∃ found,
    get_devices device_type w = (Ok found, w) ∧
    match device_type with
    | Some (String c t) =>
        ∀ k d, found !! k = Some d ↔
               devices w !! k = Some d ∧ d_type d = JStr (String c t)
    | Some EmptyString | None => found = devices w
    end.
Proof.
  destruct device_type as [[|c t]|]; simpl; eexists; (split; [reflexivity |]); try done.
  intros k d. rewrite map_lookup_filter_Some. simpl. unfold has_type.
  split; intros [H1 H2]; (split; [done |]).
  - destruct (d_type d) as [| | |s| |]; try done.
    by apply String.eqb_eq in H2 as ->.
  - rewrite H2. apply String.eqb_refl.
Qed.

(** A device that is in the registry stays known.  After any sequence
    of operations [get_device] finds a record with the same id, and
    [control_device] gets past the registry check: it never raises the
    unknown-device error, hands the command to [json.dumps], then the
    publish to the client, and returns [True] when neither raises.
    Whether they raise is up to the command and the id, not to what
    happened in between. *)
Theorem registered_stays_commandable os now device_id a command params w d :
  hashable device_id = Some a →
  devices w !! key_of a = Some d →
  let w1 := exec_all os w in
  let body := envelope now command (if truthy params then params else JDict []) in
  let request := Publish ("smarthome/devices/" +:+ py_str a +:+ "/command") body in
  (∃ d', (get_device device_id w1).1 = Ok (Some d') ∧ d_id d' = d_id d) ∧
  control_device now device_id command params w1 =
    if dumps_raises w body then (Raise ValueError, w1)
    else if client_raises w request then (Raise ValueError, send_also request w1)
    else (Ok true, log_also (LogSent command device_id) (send_also request w1)).
Proof.
  intros Ha Hk w1 body request.
  destruct (exec_all_extends os w _ _ Hk) as (d' & Hk' & Hid). fold w1 in Hk'.
  split.
  - exists d'. split; [|done]. unfold get_device. py_run. by rewrite Ha, Hk'.
  - rewrite (control_device_run _ _ _ _ a) by done. rewrite Hk'. cbv zeta.
    subst w1. by rewrite exec_all_same_client, exec_all_same_dumps.
Qed.

Lemma registered_stays_commandable_witness :
  (control_device "2024-05-03T10:00:00" (JStr "d1") (JStr "turn_on") JNull
     (exec_all [OnMessage "2024-05-01T08:05:00" lamp_on;
                OnMessage "2024-05-01T08:10:00" lamp_status;
                OnMessage "2024-05-01T09:00:00" short_state] home)).1 = Ok true.
Proof.
  destruct (registered_stays_commandable
              [OnMessage "2024-05-01T08:05:00" lamp_on;
               OnMessage "2024-05-01T08:10:00" lamp_status;
               OnMessage "2024-05-01T09:00:00" short_state]
              "2024-05-03T10:00:00" (JStr "d1") (AStr "d1") (JStr "turn_on") JNull home lamp
              eq_refl eq_refl) as [_ H].
  exact (f_equal fst H).
Defined.

(** ** The convenience commands *)

(** Each of the seven convenience commands is [control_device] with its
    own command name: [turn_on], [turn_off], [lock] and [unlock] with
    empty parameters, [set_brightness], [set_color] and [set_temperature]
    with the value they are given under one key.  The value is not
    looked at (no range is checked, and a brightness of [0] is sent as
    [0]).  On a device that is not registered each of them raises
    [ValueError] and publishes nothing.  On a registered device each of
    them returns [True] after one publish to its command topic, unless
    [json.dumps] raises on the command, and then nothing is published, or
    the client raises on the publish. *)
Theorem convenience_commands now device_id a value w :
  hashable device_id = Some a →
  let sends command params m :=
    m = match devices w !! key_of a with
        | None => (Raise ValueError, w)
        | Some _ =>
            let body := envelope now (JStr command) (JDict params) in
            let request :=
              Publish ("smarthome/devices/" +:+ py_str a +:+ "/command") body in
            if dumps_raises w body then (Raise ValueError, w)
            else if client_raises w request then (Raise ValueError, send_also request w)
            else (Ok true,
                  log_also (LogSent (JStr command) device_id) (send_also request w))
        end in
  sends "turn_on" [] (turn_on now device_id w) ∧
  sends "turn_off" [] (turn_off now device_id w) ∧
  sends "set_brightness" [("brightness", value)] (set_brightness now device_id value w) ∧
  sends "set_color" [("color", value)] (set_color now device_id value w) ∧
  sends "set_temperature" [("temperature", value)] (set_temperature now device_id value w) ∧
  sends "lock" [] (lock now device_id w) ∧
  sends "unlock" [] (unlock now device_id w).
Proof.
  intros Ha sends. subst sends. cbv beta.
  unfold turn_on, turn_off, set_brightness, set_color, set_temperature, lock, unlock.
  rewrite !(control_device_run _ _ _ _ a) by done.
  by destruct (devices w !! key_of a).
Qed.

(** A brightness of [0] is sent as it is; a brightness [json.dumps]
    cannot print is not sent; a lock that is not registered is not
    commanded. *)
Lemma convenience_commands_witness :
  set_brightness "2024-05-03T10:00:00" (JStr "d1") (JInt 0) home =
    (Ok true,
     commanded "2024-05-03T10:00:00" (JStr "d1") (AStr "d1") (JStr "set_brightness")
       (JDict [("brightness", JInt 0)]) home) ∧
  set_brightness "2024-05-03T10:00:00" (JStr "d1") (JInt int_max_str) home =
    (Raise ValueError, home) ∧
  lock "2024-05-03T10:00:00" (JStr "door") home = (Raise ValueError, home).
Proof.
  split; [|split].
  - destruct (convenience_commands "2024-05-03T10:00:00" (JStr "d1") (AStr "d1") (JInt 0)
                home eq_refl) as (_ & _ & H & _).
    exact H.
  - destruct (convenience_commands "2024-05-03T10:00:00" (JStr "d1") (AStr "d1")
                (JInt int_max_str) home eq_refl) as (_ & _ & H & _).
    exact H.
  - destruct (convenience_commands "2024-05-03T10:00:00" (JStr "door") (AStr "door") JNull
                home eq_refl) as (_ & _ & _ & _ & _ & H & _).
    exact H.
Defined.

(** ** A list as the payload of a state message *)

Lemma merge_from_seq2_pairs kvs (st : gmap pykey json) :
  merge_from_seq2 (pair_item <$> kvs) st = (Ok tt, merge kvs st).
Proof.
  revert st. induction kvs as [|[k v] kvs IH]; intros st; [done |].
  rewrite fmap_cons, merge_cons. simpl. apply IH.
Qed.

Lemma merge_from_seq2_stops good bad rest (st : gmap pykey json) e :
  as_pair bad = Raise e →
  merge_from_seq2 ((pair_item <$> good) ++ bad :: rest) st = (Raise e, merge good st).
Proof.
  intros Hbad. revert st. induction good as [|[k v] good IH]; intros st.
  - simpl. by rewrite Hbad.
  - rewrite fmap_cons, merge_cons. simpl. apply IH.
Qed.

(** [dict.update] takes a list of [[key, value]] pairs as it takes a
    dict: a state message whose body is such a JSON array updates the
    registry exactly as the message with the corresponding JSON object
    does. *)
Theorem pairs_update_like_an_object now topic kvs w :
  startswith topic "smarthome/discovery/" = false →
  endswith topic "/state" = true →
  devices (after (_on_message now (Message topic (Encodes (JList (pair_item <$> kvs))))) w)
    = devices (after (_on_message now (Message topic (Encodes (JDict kvs)))) w).
Proof.
  intros H1 H2.
  destruct (on_message_after_route now topic (JList (pair_item <$> kvs)) w) as (Hd & _).
  rewrite Hd, (state_message_devices _ _ _ _ H1 H2). unfold after.
  rewrite (route_state _ _ _ _ H1 H2).
  destruct (split "/" topic !! 2%nat) as [device_id|]; [|done].
  rewrite handle_device_state_update_run. simpl.
  destruct (devices w !! KStr device_id) as [d|]; [|done].
  by rewrite merge_from_seq2_pairs.
Qed.

Lemma pairs_update_like_an_object_witness :
  devices (after (_on_message "2024-05-01T08:05:00"
                    (Message "smarthome/devices/d1/state"
                       (Encodes (JList [JList [JStr "on"; JBool true]])))) home)
    = devices (after (_on_message "2024-05-01T08:05:00" lamp_on) home).
Proof.
  exact (pairs_update_like_an_object "2024-05-01T08:05:00" "smarthome/devices/d1/state"
           [("on", JBool true)] home eq_refl eq_refl).
Defined.

(** A state update is not atomic.  When the body is a list whose first
    elements are [[key, value]] pairs and whose next element is not a
    sequence of two, the pairs before it are stored in the state of the
    device, [last_update] is not set, the error is logged and
    [_on_message] returns. *)
Theorem failed_update_is_partial now topic device_id good bad rest e d w :
  startswith topic "smarthome/discovery/" = false →
  endswith topic "/state" = true →
  split "/" topic !! 2%nat = Some device_id →
  devices w !! KStr device_id = Some d →
  as_pair bad = Raise e →
  let msg := Message topic (Encodes (JList ((pair_item <$> good) ++ bad :: rest))) in
  let w1 := after (_on_message now msg) w in
  raised (_on_message now msg) w = None ∧
  devices w1 = <[KStr device_id := with_state (merge good) d]> (devices w) ∧
  last (logged w1) = Some (LogError e).
Proof.
  intros H1 H2 Hseg Hk Hbad msg w1. subst w1 msg.
  unfold raised, after. rewrite on_message_encodes.
  rewrite (route_state _ _ _ _ H1 H2), Hseg, handle_device_state_update_run.
  simpl. rewrite Hk, (merge_from_seq2_stops _ _ _ _ _ Hbad).
  assert (is_Exception e = true) as ->.
  { destruct bad as [| | |[|c1 [|c2 [|c3 s]]]|[|x [|y [|z l]]]|[|[k1 v1] [|[k2 v2] [|z l]]]];
      simpl in Hbad; by inversion Hbad. }
  simpl. split; [done |]. split; [done |]. by rewrite last_snoc.
Qed.

Lemma failed_update_is_partial_witness :
  devices (after (_on_message "2024-05-01T08:05:00"
                    (Message "smarthome/devices/d1/state"
                       (Encodes (JList [JList [JStr "on"; JBool true]; JInt 5])))) home)
    = <[KStr "d1" := with_state (merge [("on", JBool true)]) lamp]> (devices home).
Proof.
  destruct (failed_update_is_partial "2024-05-01T08:05:00" "smarthome/devices/d1/state"
              "d1" [("on", JBool true)] (JInt 5) [] TypeError lamp home
              eq_refl eq_refl eq_refl eq_refl eq_refl) as (_ & H & _).
  exact H.
Defined.

(** ** What can leave the message handler *)

Lemma as_pair_error item e : as_pair item = Raise e → is_Exception e = true.
Proof.
  destruct item as [| | |[|c1 [|c2 [|c3 s]]]|[|x [|y [|z l]]]|[|[k1 v1] [|[k2 v2] [|z l]]]];
    simpl; intros H; by inversion H.
Qed.

Lemma merge_from_seq2_error items (st : gmap pykey json) e :
  (merge_from_seq2 items st).1 = Raise e → is_Exception e = true.
Proof.
  revert st. induction items as [|item items IH]; intros st; simpl; [done |].
  destruct (as_pair item) as [[k v]|e'] eqn:Hp.
  - destruct (hashable k); [apply IH | by intros [= <-]].
  - simpl. intros [= <-]. by eapply as_pair_error.
Qed.

Lemma dict_update_error payload (st : gmap pykey json) e :
  (dict_update payload st).1 = Raise e → is_Exception e = true.
Proof.
  destruct payload as [| | |[|c s]|items|kvs]; simpl; try (by intros [= <-]); try done.
  apply merge_from_seq2_error.
Qed.

(** The [if]/[elif] chain raises nothing but [Exception]s. *)
Lemma route_error now topic payload w e :
  raised (route now topic payload) w = Some e → is_Exception e = true.
Proof.
  unfold raised.
  destruct (startswith topic "smarthome/discovery/") eqn:H1.
  { rewrite (route_discovery _ _ _ H1), handle_device_discovery_run.
    destruct payload as [| | | | |kvs]; try (by intros [= <-]). cbv zeta.
    destruct (truthy _); [|done].
    destruct (hashable _) as [a|]; [|by intros [= <-]].
    destruct (devices w !! key_of a); [done |]. simpl.
    destruct (client_raises w _); [by intros [= <-] | done]. }
  destruct (endswith topic "/state") eqn:H2.
  { rewrite (route_state _ _ _ _ H1 H2).
    destruct (split "/" topic !! 2%nat) as [d|]; [|by intros [= <-]].
    rewrite handle_device_state_update_run.
    destruct (devices w !! KStr d) as [r|]; [|done].
    pose proof (dict_update_error payload (d_state r)) as Herr.
    destruct (dict_update payload (d_state r)) as [[[]|e'] st]; [done |].
    simpl in *. intros [= <-]. by apply Herr. }
  destruct (endswith topic "/status") eqn:H3;
    [|by rewrite (route_other _ _ _ H1 H2 H3)].
  rewrite (route_status _ _ _ _ H1 H2 H3).
  destruct (split "/" topic !! 2%nat) as [d|]; [|by intros [= <-]].
  rewrite handle_device_status_run.
  destruct (devices w !! KStr d) as [r|]; [|done].
  destruct payload; try (by intros [= <-]); done.
Qed.

Lemma first_raise_elem topic v cbs e :
  first_raise topic v cbs = Some e → ∃ cb, cb ∈ cbs ∧ cb_body cb topic v = Some e.
Proof.
  induction cbs as [|cb cbs IH]; simpl; [done |].
  destruct (cb_body cb topic v) as [e'|] eqn:Hcb.
  - intros [= <-]. exists cb. split; [by left | done].
  - intros H. destruct (IH H) as (cb' & Hin & Hb). exists cb'. split; [by right | done].
Qed.

(** Nothing the manager does with a message can leave [_on_message]:
    whatever the topic, the body and the state, an error that leaves it
    was raised by a callback registered for the topic, on a body that
    could be read, and is not an [Exception]. *)
Theorem only_callbacks_escape now msg w e :
  raised (_on_message now msg) w = Some e →
  is_Exception e = false ∧
  ∃ v cbs cb,
    msg_payload msg = Encodes v ∧
    callbacks w !! msg_topic msg = Some cbs ∧ cb ∈ cbs ∧
    cb_body cb (msg_topic msg) v = Some e.
Proof.
  intros H. split; [by eapply on_message_catches |].
  destruct msg as [topic [|v]]; [done |].
  unfold raised in H. rewrite on_message_encodes in H.
  pose proof (route_error now topic v (log_also (LogReceived topic v) w)) as Hroute.
  pose proof (route_same_callbacks now topic v (log_also (LogReceived topic v) w)) as Hc.
  unfold raised in Hroute. unfold same in Hc.
  destruct (route now topic v (log_also (LogReceived topic v) w)) as [[[]|e'] w1];
    simpl in *.
  - destruct (callbacks w1 !! topic) as [cbs|] eqn:Hcbs; [|done].
    destruct (first_raise topic v cbs) as [e'|] eqn:Hf; [|done].
    destruct (is_Exception e'); [done |]. simpl in H. injection H as ->.
    destruct (first_raise_elem _ _ _ _ Hf) as (cb & Hin & Hb).
    exists v, cbs, cb. by rewrite <- Hc.
  - by rewrite (Hroute e' eq_refl) in H.
Qed.

Lemma only_callbacks_escape_witness :
  raised (_on_message "2024-05-01T09:00:00" news) interrupted_news = Some KeyboardInterrupt ∧
  is_Exception KeyboardInterrupt = false.
Proof.
  split; [reflexivity |].
  exact (proj1 (only_callbacks_escape "2024-05-01T09:00:00" news interrupted_news
                  KeyboardInterrupt eq_refl)).
Defined.

(** ** A device whose filter the client refuses *)

(** A discovery message for a new device whose per-device filter the
    client refuses still registers the device: the record is stored
    before the client is asked.  The error of the client is caught and
    logged by [_on_message], which returns; the callbacks registered for
    the topic of the message are not called; and nothing is logged about
    the device but its discovery. *)
Theorem refused_filter_still_registers now topic kvs a w :
  startswith topic "smarthome/discovery/" = true →
  truthy (get_or JNull "device_id" kvs) = true →
  hashable (get_or JNull "device_id" kvs) = Some a →
  devices w !! key_of a = None →
  client_raises w (Subscribe ("smarthome/devices/" +:+ py_str a +:+ "/#")) = true →
  let msg := Message topic (Encodes (JDict kvs)) in
  let w1 := after (_on_message now msg) w in
  raised (_on_message now msg) w = None ∧
  devices w1 = <[key_of a := discovered now (get_or JNull "device_id" kvs) kvs]> (devices w) ∧
  sent w1 = sent w ++ [Subscribe ("smarthome/devices/" +:+ py_str a +:+ "/#")] ∧
  calls w1 = calls w ∧
  last (logged w1) = Some (LogError ValueError).
Proof.
  intros H1 Ht Ha Hk Hclient msg w1. subst w1 msg.
  unfold raised, after. rewrite on_message_encodes.
  rewrite (route_discovery _ _ _ H1), handle_device_discovery_run. cbv zeta.
  rewrite Ht, Ha. simpl. rewrite Hk, Hclient. simpl.
  split; [done |]. split; [done |]. split; [done |]. split; [done |].
  by rewrite last_snoc.
Qed.

(** The id [hall/#] makes the filter [smarthome/devices/hall/#/#], which
    paho refuses; the device is registered all the same, and [quiet],
    which listens on the topic of the message, is not called. *)
Lemma refused_filter_still_registers_witness :
  let w := exec_all [SubscribeToTopic "smarthome/discovery/hall" quiet] initial in
  let msg :=
    Message "smarthome/discovery/hall" (Encodes (JDict [("device_id", JStr "hall/#")])) in
  raised (_on_message "2024-05-01T08:00:00" msg) w = None ∧
  is_Some (devices (after (_on_message "2024-05-01T08:00:00" msg) w) !! KStr "hall/#") ∧
  calls (after (_on_message "2024-05-01T08:00:00" msg) w) = [].
Proof.
  intros w msg.
  destruct (refused_filter_still_registers "2024-05-01T08:00:00" "smarthome/discovery/hall"
              [("device_id", JStr "hall/#")] (AStr "hall/#") w
              eq_refl eq_refl eq_refl eq_refl eq_refl) as (H1 & H2 & _ & H4 & _).
  split; [exact H1 |]. split; [|exact H4].
  fold msg in H2. rewrite H2. by eexists.
Defined.
